(** * trend.v8: the signal-derivation engine of [v8.py]

    A shallow embedding of [get_vix_status] and [analyze_stock] and the
    properties of the alert classifier, the warm-up guard, the pivot
    levels and the volume ratio.
    The code around them is embedded too: [fetch_data] as a function
    of what the download did, and the refresh loop (banner, summary
    cards, cache, detail section, symbol list) as the values it hands
    to the drawing calls.

    Numbers.  Every cell of the data frame is a binary64 float.  The
    embedding keeps what the control flow of the program depends on: a
    value is a finite number, an infinity or NaN; comparisons with NaN
    are false; [x != 0] is true for NaN; a division by zero does not
    raise (numpy scalars) but yields an infinity or NaN.  Finite values
    are exact rationals: rounding is abstracted.

    Exceptions.  Positional access ([.iloc[-k]]) raises [IndexError]
    when the frame is too short; the embedding threads that through a
    small error monad, so that "does not raise" is a statement about
    the result of the function. *)

From Stdlib Require Import Ascii String.
From Stdlib Require Import QArith Qminmax Lqa Lia List Bool Arith.
Import ListNotations.

Local Open Scope Q_scope.

(** ** Float values *)

Module Num.

Inductive num : Type :=
| Fin (q : Q)
| PInf
| NInf
| NaN.

Definition is_finite (x : num) : bool :=
  match x with Fin _ => true | _ => false end.

Definition Qltb (a b : Q) : bool := negb (Qle_bool b a).

(** Sign of a finite value: used by the infinities' arithmetic. *)
Definition Qpos (a : Q) : bool := Qltb 0 a.
Definition Qneg (a : Q) : bool := Qltb a 0.

Definition neg (x : num) : num :=
  match x with
  | Fin a => Fin (- a)
  | PInf => NInf
  | NInf => PInf
  | NaN => NaN
  end.

Definition add (x y : num) : num :=
  match x, y with
  | NaN, _ | _, NaN => NaN
  | Fin a, Fin b => Fin (a + b)
  | PInf, NInf | NInf, PInf => NaN
  | PInf, _ | _, PInf => PInf
  | NInf, _ | _, NInf => NInf
  end.

Definition sub (x y : num) : num := add x (neg y).

(** [inf_signed s]: the infinity of sign [s] ([true] is positive). *)
Definition inf_signed (s : bool) : num := if s then PInf else NInf.

Definition mul_inf (s : bool) (y : num) : num :=
  match y with
  | NaN => NaN
  | PInf => inf_signed s
  | NInf => inf_signed (negb s)
  | Fin b => if Qpos b then inf_signed s
             else if Qneg b then inf_signed (negb s) else NaN
  end.

Definition mul (x y : num) : num :=
  match x, y with
  | NaN, _ | _, NaN => NaN
  | Fin a, Fin b => Fin (a * b)
  | PInf, _ => mul_inf true y
  | NInf, _ => mul_inf false y
  | _, PInf => mul_inf true x
  | _, NInf => mul_inf false x
  end.

(** Division of numpy float scalars: [x / 0] is an infinity of the sign
    of [x], [0 / 0] is NaN, and nothing is raised. *)
Definition div (x y : num) : num :=
  match x, y with
  | NaN, _ | _, NaN => NaN
  | Fin a, Fin b =>
      if Qeq_bool b 0 then
        (if Qpos a then PInf else if Qneg a then NInf else NaN)
      else Fin (a / b)
  | Fin _, (PInf | NInf) => Fin 0
  | (PInf | NInf), (PInf | NInf) => NaN
  | PInf, Fin b => inf_signed (negb (Qneg b))
  | NInf, Fin b => inf_signed (Qneg b)
  end.

(** Comparisons: every comparison with NaN is false, [!=] is true. *)
Definition ltb (x y : num) : bool :=
  match x, y with
  | NaN, _ | _, NaN => false
  | Fin a, Fin b => Qltb a b
  | NInf, NInf => false
  | NInf, _ => true
  | _, NInf => false
  | PInf, _ => false
  | Fin _, PInf => true
  end.

Definition eqb (x y : num) : bool :=
  match x, y with
  | Fin a, Fin b => Qeq_bool a b
  | PInf, PInf | NInf, NInf => true
  | _, _ => false
  end.

Definition leb (x y : num) : bool := ltb x y || eqb x y.
Definition gtb (x y : num) : bool := ltb y x.
Definition geb (x y : num) : bool := leb y x.
Definition neqb (x y : num) : bool := negb (eqb x y).

(** Equality of values up to the representation of the rational. *)
Definition equiv (x y : num) : Prop :=
  match x, y with
  | Fin a, Fin b => a == b
  | PInf, PInf | NInf, NInf | NaN, NaN => True
  | _, _ => False
  end.

End Num.

Import Num.

Declare Scope num_scope.
Delimit Scope num_scope with num.
Infix "+" := Num.add : num_scope.
Infix "-" := Num.sub : num_scope.
Infix "*" := Num.mul : num_scope.
Infix "/" := Num.div : num_scope.
Infix "<?" := Num.ltb : num_scope.
Infix "<=?" := Num.leb : num_scope.
Infix ">?" := Num.gtb (at level 70) : num_scope.
Infix ">=?" := Num.geb (at level 70) : num_scope.
Infix "!=?" := Num.neqb (at level 70) : num_scope.
Infix "=~" := Num.equiv (at level 70) : num_scope.

(** ** Exceptions *)

Inductive exn : Type :=
| IndexError
| TypeError
| AttributeError.

Inductive result (A : Type) : Type :=
| Ok (a : A)
| Raise (e : exn).

Arguments Ok {A} a.
Arguments Raise {A} e.

Definition bind {A B : Type} (m : result A) (k : A -> result B) : result B :=
  match m with
  | Ok a => k a
  | Raise e => Raise e
  end.

Notation "x <- m ;; k" := (bind m (fun x => k))
  (at level 61, m at next level, right associativity).

(** ** Data model *)

(** One row of the OHLCV table returned by [fetch_data]; the index of
    the frame is the timestamp. *)
Record Bar : Type := mkBar {
  timestamp : Z;
  Open : Q;
  High : Q;
  Low : Q;
  Close : Q;
  Volume : Q
}.

(** A frame is the list of its rows, oldest first.  [fetch_data] returns
    [None] when the download is empty or fails. *)
Definition Frame : Type := list Bar.

(** A row of the frame once [analyze_stock] has added its four columns. *)
Record Row : Type := mkRow {
  bar : Bar;
  EMA_F : num;
  EMA_S : num;
  RSI : num;
  Vol_MA : num
}.

Definition AugFrame : Type := list Row.

(** The [info] dictionary built by [analyze_stock]. *)
Record Info : Type := mkInfo {
  price : num;
  chg_pct : num;
  rsi : num;
  vol_ratio : num;
  trend : string;
  res : num;
  sup : num;
  msg : string;
  level : string
}.

(** ** Frame primitives *)

(** [len(df)]: [len(None)] raises [TypeError]. *)
Definition len {A : Type} (df : option (list A)) : result nat :=
  match df with
  | None => Raise TypeError
  | Some rows => Ok (length rows)
  end.

(** [df.copy()]: an attribute access on [None] raises. *)
Definition copy {A : Type} (df : option (list A)) : result (list A) :=
  match df with
  | None => Raise AttributeError
  | Some rows => Ok rows
  end.

(** [df[name]]: the column [name]; subscripting [None] raises. *)
Definition column {A B : Type} (df : option (list A)) (name : A -> B)
  : result (list B) :=
  match df with
  | None => Raise TypeError
  | Some rows => Ok (map name rows)
  end.

Definition is_None {A : Type} (x : option A) : bool :=
  match x with None => true | Some _ => false end.

(** [s.iloc[-k]] for [k >= 1]: the [k]-th element from the end, or
    [IndexError] when the frame has fewer than [k] rows. *)
Definition iloc_neg {A : Type} (rows : list A) (k : nat) : result A :=
  if ((k =? 0) || (length rows <? k))%nat then Raise IndexError
  else match nth_error rows (length rows - k) with
       | Some r => Ok r
       | None => Raise IndexError
       end.

(** ** Indicators of [pandas_ta] *)

Definition Qsum (xs : list Q) : Q := fold_right Qplus 0 xs.

Definition Qnat (n : nat) : Q := inject_Z (Z.of_nat n).

Definition Qmean (xs : list Q) : Q := Qsum xs / Qnat (length xs).

(** Modelled from the spec: [ta.sma] is not part of the repository.
    Simple moving average over a trailing [n]-bar window, undefined
    until [n] bars exist. *)
Definition sma_at (xs : list Q) (n i : nat) : num :=
  if ((n =? 0) || (S i <? n))%nat then NaN
  else Fin (Qmean (firstn n (skipn (S i - n) xs))).

Definition sma (xs : list Q) (n : nat) : list num :=
  map (sma_at xs n) (seq 0 (length xs)).

(** Modelled from the spec: the exponential-smoothing recurrence of
    [ta.ema], run over the bars that follow the seed. *)
Fixpoint ema_run (alpha prev : Q) (xs : list Q) : Q :=
  match xs with
  | [] => prev
  | x :: rest => ema_run alpha (alpha * x + (1 - alpha) * prev) rest
  end.

(** Modelled from the spec: [ta.ema] is not part of the repository.
    Smoothing factor [2 / (n + 1)]; the first [n - 1] values are
    undefined and the recurrence is seeded by the simple average of the
    first [n] closes. *)
Definition ema_at (xs : list Q) (n i : nat) : num :=
  if ((n =? 0) || (S i <? n))%nat then NaN
  else Fin (ema_run (2 / (Qnat n + 1)) (Qmean (firstn n xs))
                    (firstn (S i - n) (skipn n xs))).

Definition ema (xs : list Q) (n : nat) : list num :=
  map (ema_at xs n) (seq 0 (length xs)).

(** Modelled from the spec: the closing-price deltas read by [ta.rsi],
    the change between consecutive bars. *)
Fixpoint diffs (prev : Q) (xs : list Q) : list Q :=
  match xs with
  | [] => []
  | x :: rest => (x - prev) :: diffs x rest
  end.

Definition deltas (xs : list Q) : list Q :=
  match xs with
  | [] => []
  | x :: rest => diffs x rest
  end.

Definition gain (d : Q) : Q := Qmax 0 d.
Definition loss (d : Q) : Q := Qmax 0 (- d).

(** Modelled from the spec: Wilder's smoothing of [ta.rsi],
    [avg' = (avg * (n - 1) + x) / n], run from a first value over the
    values that follow it. *)
Fixpoint wilder_run (n : nat) (prev : Q) (xs : list Q) : Q :=
  match xs with
  | [] => prev
  | x :: rest => wilder_run n ((prev * (Qnat n - 1) + x) / Qnat n) rest
  end.

(** Modelled from the spec: the index of [ta.rsi] from the smoothed
    gain and loss, [100 * gain / (gain + loss)], in the arithmetic of
    the cells of the frame: when there was no price change at all the
    quotient is 0 / 0 and the index has no value. *)
Definition rsi_value (g l : Q) : num :=
  (Fin 100 * Fin g / (Fin g + Fin l))%num.

(** Modelled from the spec: [ta.rsi] is not part of the repository.
    Wilder's relative-strength index over the closing-price deltas with
    an [n]-period window, undefined until [n] deltas exist; the gains
    and the losses are smoothed from the first delta on. *)
Definition rsi_at (xs : list Q) (n i : nat) : num :=
  if ((n =? 0) || (i <? n))%nat then NaN
  else
    match firstn i (deltas xs) with
    | [] => NaN
    | d :: rest =>
        rsi_value (wilder_run n (gain d) (map gain rest))
                  (wilder_run n (loss d) (map loss rest))
    end.

Definition ta_rsi (xs : list Q) (n : nat) : list num :=
  map (rsi_at xs n) (seq 0 (length xs)).

(** ** [get_vix_status] *)

(** The fetched series is the argument: [fetch_data] is the provider. *)
Definition get_vix_status (vix : option Frame) : result (num * num) :=
  short <- (if is_None vix then Ok true
            else n <- len vix ;; Ok (n <? 2)%nat) ;;
  if (short : bool) then Ok (Fin 20, Fin 0)
  else
    closes <- column vix Close ;;
    last_close <- iloc_neg closes 1 ;;
    let curr_v := Fin last_close in
    closes' <- column vix Close ;;
    prev_close <- iloc_neg closes' 2 ;;
    let v_chg := (curr_v - Fin prev_close)%num in
    Ok (curr_v, v_chg).

(** ** [analyze_stock] *)

(** The columns are assigned by position. *)
Definition add_columns (df : Frame) (ema_f ema_s rsi14 vol_ma : list num)
  : AugFrame :=
  map (fun i =>
         {| bar := nth i df (mkBar 0 0 0 0 0 0);
            EMA_F := nth i ema_f NaN;
            EMA_S := nth i ema_s NaN;
            RSI := nth i rsi14 NaN;
            Vol_MA := nth i vol_ma NaN |})
      (seq 0 (length df)).

Definition pivot_point (high low close : num) : num :=
  ((high + low + close) / Fin 3)%num.

Definition msg_monitoring : string := "監控中".
Definition msg_golden : string := "↗️ 黃金交叉".
Definition msg_death : string := "↘️ 死亡交叉".
Definition msg_resistance : string := "🧱 接近壓力".

(** The golden-cross and death-cross tests of the alert chain. *)
Definition golden_cross (prev_row last_row : Row) : bool :=
  ((EMA_F prev_row <=? EMA_S prev_row)
   && (EMA_F last_row >? EMA_S last_row))%num.

Definition death_cross (prev_row last_row : Row) : bool :=
  ((EMA_F prev_row >=? EMA_S prev_row)
   && (EMA_F last_row <? EMA_S last_row))%num.

Definition near_resistance (close res_1 : num) : bool :=
  (close >=? res_1 * Fin (998 # 1000))%num.

(** The [if]/[elif] chain that sets [msg, level]; the last branch is
    the initial assignment, which no test has overwritten. *)
Definition alert (prev_row last_row : Row) (close res_1 : num)
  : string * string :=
  if golden_cross prev_row last_row then (msg_golden, "error"%string)
  else if death_cross prev_row last_row then (msg_death, "error"%string)
  else if near_resistance close res_1 then (msg_resistance, "warning"%string)
  else (msg_monitoring, "success"%string).

Definition analyze_stock (df : option Frame) (v_chg : num)
    (ema_f ema_s : nat) : result (option AugFrame * option Info) :=
  short <- (if is_None df then Ok true
            else n <- len df ;; Ok (n <? 30)%nat) ;;
  if (short : bool) then Ok (None, None)
  else
    df0 <- copy df ;;
    let df1 := add_columns df0
                 (ema (map Close df0) ema_f)
                 (ema (map Close df0) ema_s)
                 (ta_rsi (map Close df0) 14)
                 (sma (map Volume df0) 10) in
    last_row <- iloc_neg df1 1 ;;
    let high := Fin (High (bar last_row)) in
    let low := Fin (Low (bar last_row)) in
    let close := Fin (Close (bar last_row)) in
    let pivot := pivot_point high low close in
    let res_1 := (Fin 2 * pivot - low)%num in
    let sup_1 := (Fin 2 * pivot - high)%num in
    let vol_ratio :=
      if (Vol_MA last_row !=? Fin 0)%num
      then (Fin (Volume (bar last_row)) / Vol_MA last_row)%num
      else Fin 1 in
    let trend :=
      if (EMA_F last_row >? EMA_S last_row)%num
      then " Bullish"%string else " Bearish"%string in
    prev_row <- iloc_neg df1 2 ;;
    let '(msg, level) := alert prev_row last_row close res_1 in
    open <- iloc_neg (map (fun r => Open (bar r)) df1) 1 ;;
    let info :=
      {| price := close;
         chg_pct := ((close - Fin open) / Fin open * Fin 100)%num;
         rsi := RSI last_row;
         vol_ratio := vol_ratio;
         trend := trend;
         res := res_1;
         sup := sup_1;
         msg := msg;
         level := level |} in
    Ok (Some df1, Some info).

(** ** The spec's reading of the alert classifier *)

Inductive Severity : Type := normal | caution | critical.

Inductive Label : Type :=
| golden_cross_label
| death_cross_label
| near_resistance_label
| monitoring_label.

(** An ordered list of (predicate, label, severity) rules, evaluated
    top to bottom; the first rule whose predicate holds wins. *)
Fixpoint first_match {A : Type} (rules : list (bool * A)) (default : A) : A :=
  match rules with
  | [] => default
  | (true, a) :: _ => a
  | (false, _) :: rest => first_match rest default
  end.

(** The rules as the spec words them, on the previous and latest fast
    and slow EMA, the latest close and R1. *)
Definition spec_rules (prev_fast prev_slow last_fast last_slow close r1 : num)
  : list (bool * (Label * Severity)) :=
  [ (((prev_fast <=? prev_slow) && (last_fast >? last_slow))%num,
     (golden_cross_label, critical));
    (((prev_fast >=? prev_slow) && (last_fast <? last_slow))%num,
     (death_cross_label, critical));
    ((close >=? Fin (998 # 1000) * r1)%num,
     (near_resistance_label, caution)) ].

Definition spec_classify (prev_fast prev_slow last_fast last_slow close r1 : num)
  : Label * Severity :=
  first_match (spec_rules prev_fast prev_slow last_fast last_slow close r1)
              (monitoring_label, normal).

(** How the dashboard reads the strings of [info]: [st.error] is the
    critical card, [st.warning] the caution card, [st.success] the
    normal one. *)
Definition severity_of_level (level : string) : option Severity :=
  if String.eqb level "error" then Some critical
  else if String.eqb level "warning" then Some caution
  else if String.eqb level "success" then Some normal
  else None.

Definition label_of_msg (m : string) : option Label :=
  if String.eqb m msg_golden then Some golden_cross_label
  else if String.eqb m msg_death then Some death_cross_label
  else if String.eqb m msg_resistance then Some near_resistance_label
  else if String.eqb m msg_monitoring then Some monitoring_label
  else None.

(** ** Abbreviations used by the statements *)

(** The frame after the four column assignments. *)
Definition augment (df : Frame) (ema_f ema_s : nat) : AugFrame :=
  add_columns df
    (ema (map Close df) ema_f)
    (ema (map Close df) ema_s)
    (ta_rsi (map Close df) 14)
    (sma (map Volume df) 10).

(** Row [i] of the augmented frame, cell by cell. *)
Definition row_at (df : Frame) (ema_f ema_s i : nat) : Row :=
  {| bar := nth i df (mkBar 0 0 0 0 0 0);
     EMA_F := ema_at (map Close df) ema_f i;
     EMA_S := ema_at (map Close df) ema_s i;
     RSI := rsi_at (map Close df) 14 i;
     Vol_MA := sma_at (map Volume df) 10 i |}.

(** The generalised warm-up floor of the spec. *)
Definition warmup_floor (ema_s : nat) : nat :=
  S (Nat.max ema_s (Nat.max 14 10)).

Fixpoint strictly_increasing (ts : list Z) : Prop :=
  match ts with
  | [] => True
  | t :: rest =>
      match rest with
      | [] => True
      | t' :: _ => (t < t')%Z /\ strictly_increasing rest
      end
  end.

(** A sample series of any length: bar [i] opens at [i + 2], ranges
    over [i + 1 .. i + 4], closes at [i + 3] and trades [i] units. *)
Definition sample_bar (i : nat) : Bar :=
  mkBar (Z.of_nat i) (Qnat i + 2) (Qnat i + 4) (Qnat i + 1) (Qnat i + 3)
        (Qnat i).

Definition sample (n : nat) : Frame := map sample_bar (seq 0 n).

(** The [info] dictionary as a function of the last two rows. *)
Definition snapshot (prev_row last_row : Row) : Info :=
  let high := Fin (High (bar last_row)) in
  let low := Fin (Low (bar last_row)) in
  let close := Fin (Close (bar last_row)) in
  let pivot := pivot_point high low close in
  let res_1 := (Fin 2 * pivot - low)%num in
  {| price := close;
     chg_pct := ((close - Fin (Open (bar last_row)))
                 / Fin (Open (bar last_row)) * Fin 100)%num;
     rsi := RSI last_row;
     vol_ratio :=
       if (Vol_MA last_row !=? Fin 0)%num
       then (Fin (Volume (bar last_row)) / Vol_MA last_row)%num
       else Fin 1;
     trend := if (EMA_F last_row >? EMA_S last_row)%num
              then " Bullish"%string else " Bearish"%string;
     res := res_1;
     sup := (Fin 2 * pivot - high)%num;
     msg := fst (alert prev_row last_row close res_1);
     level := snd (alert prev_row last_row close res_1) |}.

(** A 30-bar series whose latest bar is the pivot example of the spec. *)
Definition pivot_sample : Frame :=
  sample 29 ++ [mkBar 29 100 110 90 100 1000].

(** A 30-bar series whose latest bar opens at zero. *)
Definition zero_open_sample : Frame :=
  sample 29 ++ [mkBar 29 0 110 90 100 1000].

Definition nonneg (xs : list Q) : Prop := Forall (Qle 0) xs.

(** Both EMA lengths are at least 1 and no longer than the series, so
    that [ta.ema] has a value on the latest row. *)
Definition windows_fit (ema_f ema_s : nat) (rows : Frame) : Prop :=
  (1 <= ema_f <= length rows)%nat /\ (1 <= ema_s <= length rows)%nat.

(** A 30-bar series without any price change. *)
Definition flat_sample : Frame :=
  map (fun i => mkBar (Z.of_nat i) 100 100 100 100 1000) (seq 0 30).

(** ** [fetch_data] *)

(** What [yf.download] did for one ticker and interval: it raised, or
    it returned a table.  The columns of the table are read by their
    level-0 name, which is what the flattening of a [MultiIndex] keeps,
    so a row is a [Bar] either way. *)
Inductive Download : Type :=
| download_raised
| downloaded (data : Frame).

(** [data.empty] *)
Definition empty {A : Type} (data : list A) : bool :=
  match data with [] => true | _ :: _ => false end.

(** The [try] block returns [None] for an empty table and the table
    otherwise; the [except] clause turns every exception into [None]. *)
Definition fetch_data (d : Download) : option Frame :=
  match d with
  | download_raised => None
  | downloaded data => if empty data then None else Some data
  end.

(** ** The refresh loop *)

Definition banner_volatile : string := "波動加劇，建議縮小部位".
Definition banner_stable : string := "市場穩定，適合技術面操作".

(** The hint of the VIX banner, chosen by [v_chg > 0.2]. *)
Definition vix_hint (v_chg : num) : string :=
  if (v_chg >? Fin (2 # 10))%num then banner_volatile else banner_stable.

(** The VIX banner of one cycle, from the outcome of the download of
    the index: the value shown and the hint. *)
Definition vix_banner (d : Download) : result (num * string) :=
  st <- get_vix_status (fetch_data d) ;;
  let '(v_val, v_chg) := st in
  Ok (v_val, vix_hint v_chg).

(** The call that draws the summary card of a symbol, with its text. *)
Inductive Card : Type :=
| st_error (body : string)
| st_warning (body : string)
| st_success (body : string)
| st_write (body : string).

Definition card_text (sym m : string) : string :=
  ("**" ++ sym ++ ": " ++ m ++ "**")%string.

Definition no_data_text (sym : string) : string :=
  ("⚠️ " ++ sym ++ " 無數據")%string.

(** The body of [with cols[idx]]: [if info] holds for every dictionary
    that [analyze_stock] builds, and fails for [None].  The caption
    under the card only formats [trend] and [vol_ratio]. *)
Definition summary_card (sym : string) (info : option Info) : Card :=
  match info with
  | Some i =>
      if String.eqb (level i) "error" then st_error (card_text sym (msg i))
      else if String.eqb (level i) "warning"
           then st_warning (card_text sym (msg i))
           else st_success (card_text sym (msg i))
  | None => st_write (no_data_text sym)
  end.

(** [stock_cache]: a dictionary from symbol to the pair that
    [analyze_stock] returned.  An assignment replaces the value of a
    key that is present and adds the key otherwise. *)
Definition Cache : Type := list (string * (option AugFrame * option Info)).

Fixpoint dict_set (k : string) (v : option AugFrame * option Info)
    (c : Cache) : Cache :=
  match c with
  | [] => [(k, v)]
  | (k', v') :: rest =>
      if String.eqb k k' then (k, v) :: rest
      else (k', v') :: dict_set k v rest
  end.

Fixpoint dict_get (k : string) (c : Cache)
  : option (option AugFrame * option Info) :=
  match c with
  | [] => None
  | (k', v') :: rest => if String.eqb k k' then Some v' else dict_get k rest
  end.

(** The first loop of a cycle, [for idx, sym in enumerate(symbols)]:
    fetch, analyze, store in the cache and draw the card.  [provider]
    is the outcome of the download made at position [idx]. *)
Fixpoint summary_loop (provider : nat -> string -> Download)
    (v_chg : num) (ema_f ema_s : nat)
    (idx : nat) (symbols : list string) (stock_cache : Cache)
  : result (Cache * list Card) :=
  match symbols with
  | [] => Ok (stock_cache, [])
  | sym :: rest =>
      let df_raw := fetch_data (provider idx sym) in
      entry <- analyze_stock df_raw v_chg ema_f ema_s ;;
      let stock_cache := dict_set sym entry stock_cache in
      let card := summary_card sym (snd entry) in
      done <- summary_loop provider v_chg ema_f ema_s (S idx) rest
                stock_cache ;;
      Ok (fst done, card :: snd done)
  end.

(** [df.tail(n)]: the last [n] rows, or all of them. *)
Definition tail {A : Type} (n : nat) (rows : list A) : list A :=
  skipn (length rows - n) rows.

(** [s.iloc[i]] for [i >= 0]. *)
Definition iloc {A : Type} (rows : list A) (i : nat) : result A :=
  match nth_error rows i with
  | Some r => Ok r
  | None => Raise IndexError
  end.

(** [info[key]]: subscripting [None] raises [TypeError]. *)
Definition getitem {B : Type} (info : option Info) (key : Info -> B)
  : result B :=
  match info with
  | None => Raise TypeError
  | Some i => Ok (key i)
  end.

(** The colour of one volume bar. *)
Definition candle_color (r : Row) : string :=
  if (Fin (Close (bar r)) <? Fin (Open (bar r)))%num
  then "red"%string else "green"%string.

(** The list comprehension of [v_colors], over [range(len(df_plot))]. *)
Fixpoint candle_colors (df_plot : AugFrame) (range : list nat)
  : result (list string) :=
  match range with
  | [] => Ok []
  | i :: rest =>
      c <- iloc (map (fun r => Close (bar r)) df_plot) i ;;
      o <- iloc (map (fun r => Open (bar r)) df_plot) i ;;
      let color := if (Fin c <? Fin o)%num then "red"%string
                   else "green"%string in
      colors <- candle_colors df_plot rest ;;
      Ok (color :: colors)
  end.

(** What the detail section draws for one symbol: the rows of the
    chart, the numbers of the left column, the two dashed lines and the
    colours of the volume bars. *)
Record Panel : Type := mkPanel {
  df_plot : AugFrame;
  metric_price : num;
  metric_delta : num;
  rsi_shown : num;
  res_shown : num;
  sup_shown : num;
  res_line : num;
  sup_line : num;
  v_colors : list string
}.

(** The body of the second loop for one cache entry: nothing is drawn
    when [df is None]; otherwise [info] is subscripted without a test. *)
Definition detail_panel (entry : option AugFrame * option Info)
  : result (option Panel) :=
  let '(df, info) := entry in
  match df with
  | None => Ok None
  | Some rows =>
      let plot := tail 30 rows in
      p <- getitem info price ;;
      c <- getitem info chg_pct ;;
      r <- getitem info rsi ;;
      rs <- getitem info res ;;
      sp <- getitem info sup ;;
      rl <- getitem info res ;;
      sl <- getitem info sup ;;
      colors <- candle_colors plot (seq 0 (length plot)) ;;
      Ok (Some (mkPanel plot p c r rs sp rl sl colors))
  end.

(** ** The symbol list *)

(** [s.split(",")] *)
Fixpoint split_comma (s : string) : list string :=
  match s with
  | EmptyString => [EmptyString]
  | String c rest =>
      if Ascii.eqb c ","%char then EmptyString :: split_comma rest
      else match split_comma rest with
           | [] => [String c EmptyString]
           | piece :: pieces => String c piece :: pieces
           end
  end.

Fixpoint count_commas (s : string) : nat :=
  match s with
  | EmptyString => 0
  | String c rest =>
      if Ascii.eqb c ","%char then S (count_commas rest)
      else count_commas rest
  end.

(** [[s.strip().upper() for s in input_symbols.split(",")]], for any
    [strip] and [upper] on strings. *)
Definition parse_symbols (strip upper : string -> string)
    (input_symbols : string) : list string :=
  map (fun s => upper (strip s)) (split_comma input_symbols).

(** A 30-bar series that falls for 29 bars and jumps on the last one. *)
Definition cross_sample : Frame :=
  map (fun i => mkBar (Z.of_nat i) (131 - Qnat i) (132 - Qnat i)
                      (129 - Qnat i) (130 - Qnat i) 1000)
      (seq 0 29)
  ++ [mkBar 29 102 400 101 400 5000].

(** The downloads of a sample cycle: the one at position 1 fails, the
    others return [cross_sample]. *)
Definition sample_provider (idx : nat) (sym : string) : Download :=
  if (idx =? 1)%nat then download_raised else downloaded cross_sample.

Definition sample_symbols : list string :=
  ["AAPL"; "NVDA"; "AAPL"]%string.

(** ** Lists and positional access *)

Section Iloc.

Context {A : Type}.

Lemma iloc_neg_nth (rows : list A) (k : nat) (d : A) :
  (1 <= k <= length rows)%nat ->
  iloc_neg rows k = Ok (nth (length rows - k) rows d).
Proof.
  intros [Hk Hlen]. unfold iloc_neg.
  replace (k =? 0)%nat with false by (symmetry; apply Nat.eqb_neq; lia).
  replace (length rows <? k)%nat with false
    by (symmetry; apply Nat.ltb_ge; lia).
  cbn [orb].
  rewrite (nth_error_nth' rows d) by lia. reflexivity.
Qed.

Lemma iloc_neg_short (rows : list A) (k : nat) :
  (length rows < k)%nat -> iloc_neg rows k = Raise IndexError.
Proof.
  intros H. unfold iloc_neg.
  replace (length rows <? k)%nat with true
    by (symmetry; apply Nat.ltb_lt; lia).
  now rewrite orb_true_r.
Qed.

Lemma iloc_neg_app2 (pre : list A) (x y : A) :
  iloc_neg (pre ++ [x; y]) 1 = Ok y /\ iloc_neg (pre ++ [x; y]) 2 = Ok x.
Proof.
  split.
  - rewrite (iloc_neg_nth _ _ x) by (rewrite length_app; cbn; lia).
    rewrite length_app. cbn [length].
    rewrite app_nth2 by lia.
    replace (length pre + 2 - 1 - length pre)%nat with 1%nat by lia.
    reflexivity.
  - rewrite (iloc_neg_nth _ _ x) by (rewrite length_app; cbn; lia).
    rewrite length_app. cbn [length].
    rewrite app_nth2 by lia.
    replace (length pre + 2 - 2 - length pre)%nat with 0%nat by lia.
    reflexivity.
Qed.

End Iloc.

Lemma iloc_neg_map_seq {B : Type} (f : nat -> B) (n k : nat) :
  (1 <= k <= n)%nat -> iloc_neg (map f (seq 0 n)) k = Ok (f (n - k)%nat).
Proof.
  intros H.
  rewrite (iloc_neg_nth _ _ (f 0%nat)) by (rewrite length_map, length_seq; lia).
  rewrite length_map, length_seq.
  rewrite (map_nth f (seq 0 n) 0%nat), seq_nth by lia.
  reflexivity.
Qed.

Lemma nth_map_seq {B : Type} (f : nat -> B) (n i : nat) (d : B) :
  (i < n)%nat -> nth i (map f (seq 0 n)) d = f i.
Proof.
  intros H.
  rewrite (nth_indep _ d (f 0%nat)) by (rewrite length_map, length_seq; lia).
  rewrite (map_nth f (seq 0 n) 0%nat), seq_nth by lia.
  reflexivity.
Qed.

Lemma augment_rows (df : Frame) (ema_f ema_s : nat) :
  augment df ema_f ema_s = map (row_at df ema_f ema_s) (seq 0 (length df)).
Proof.
  unfold augment, add_columns. apply map_ext_in.
  intros i Hi. apply in_seq in Hi.
  unfold row_at, ema, ta_rsi, sma. rewrite !length_map.
  rewrite !nth_map_seq by lia. reflexivity.
Qed.

Lemma augment_iloc (df : Frame) (ema_f ema_s k : nat) :
  (1 <= k <= length df)%nat ->
  iloc_neg (augment df ema_f ema_s) k
  = Ok (row_at df ema_f ema_s (length df - k)).
Proof.
  intros H. rewrite augment_rows. now apply iloc_neg_map_seq.
Qed.

Lemma augment_open_iloc (df : Frame) (ema_f ema_s : nat) :
  (1 <= length df)%nat ->
  iloc_neg (map (fun r => Open (bar r)) (augment df ema_f ema_s)) 1
  = Ok (Open (bar (row_at df ema_f ema_s (length df - 1)))).
Proof.
  intros H. rewrite augment_rows, map_map.
  now rewrite iloc_neg_map_seq by lia.
Qed.

(** ** What [analyze_stock] returns on an accepted series *)

Lemma analyze_stock_accepted (df : Frame) (v_chg : num) (ema_f ema_s : nat) :
  (30 <= length df)%nat ->
  analyze_stock (Some df) v_chg ema_f ema_s
  = Ok (Some (augment df ema_f ema_s),
        Some (snapshot (row_at df ema_f ema_s (length df - 2))
                       (row_at df ema_f ema_s (length df - 1)))).
Proof.
  intros Hlen. unfold analyze_stock.
  cbn [is_None len bind copy].
  replace (length df <? 30)%nat with false
    by (symmetry; apply Nat.ltb_ge; lia).
  fold (augment df ema_f ema_s).
  rewrite !augment_iloc by lia. cbn [bind].
  rewrite augment_open_iloc by lia. cbn [bind].
  unfold snapshot.
  destruct (alert _ _ _ _) as [m l]. reflexivity.
Qed.

(** ** Comparisons of float values *)

Lemma Qltb_lt (a b : Q) : Qltb a b = true <-> a < b.
Proof.
  unfold Qltb. rewrite negb_true_iff, <- not_true_iff_false, Qle_bool_iff.
  split; [apply Qnot_le_lt | apply Qlt_not_le].
Qed.

Lemma Qltb_ge (a b : Q) : Qltb a b = false <-> b <= a.
Proof.
  unfold Qltb. rewrite negb_false_iff. apply Qle_bool_iff.
Qed.

Lemma ltb_asym (x y : num) : (x <? y)%num && (y <? x)%num = false.
Proof.
  destruct x as [a| | |], y as [b| | |]; try reflexivity.
  cbn [Num.ltb].
  destruct (Qltb a b) eqn:Hab; [|reflexivity].
  destruct (Qltb b a) eqn:Hba; [|reflexivity].
  apply Qltb_lt in Hab, Hba. lra.
Qed.

Lemma mul_comm (x y : num) : (x * y =~ y * x)%num.
Proof.
  destruct x as [a| | |], y as [b| | |]; cbn; try exact I.
  - ring.
  - destruct (Qpos a), (Qneg a); exact I.
  - destruct (Qpos a), (Qneg a); exact I.
  - destruct (Qpos b), (Qneg b); exact I.
  - destruct (Qpos b), (Qneg b); exact I.
Qed.

Lemma leb_equiv_l (x x' y : num) :
  (x =~ x')%num -> (x <=? y)%num = (x' <=? y)%num.
Proof.
  destruct x as [a| | |], x' as [a'| | |]; cbn [Num.equiv];
    try contradiction; try reflexivity.
  intros E. destruct y as [b| | |]; try reflexivity.
  unfold Num.leb, Num.ltb, Num.eqb, Qltb.
  rewrite (Qeq_bool_comm a), (Qeq_bool_comm a').
  assert (H1 : Qle_bool b a = Qle_bool b a').
  { apply eq_true_iff_eq. rewrite !Qle_bool_iff, E. reflexivity. }
  assert (H2 : Qeq_bool b a = Qeq_bool b a').
  { apply eq_true_iff_eq. rewrite !Qeq_bool_iff, E. reflexivity. }
  now rewrite H1, H2.
Qed.

(** ** The alert classifier *)

Lemma alert_spec_classify (prev_row last_row : Row) (close res_1 : num) :
  let '(l, s) := spec_classify (EMA_F prev_row) (EMA_S prev_row)
                   (EMA_F last_row) (EMA_S last_row) close res_1 in
  label_of_msg (fst (alert prev_row last_row close res_1)) = Some l /\
  severity_of_level (snd (alert prev_row last_row close res_1)) = Some s.
Proof.
  unfold spec_classify, spec_rules, alert, golden_cross, death_cross,
    near_resistance, Num.geb.
  rewrite (leb_equiv_l _ _ close (mul_comm res_1 (Fin (998 # 1000)))).
  cbn [first_match].
  destruct ((EMA_F prev_row <=? EMA_S prev_row)
            && (EMA_F last_row >? EMA_S last_row))%num;
    [split; reflexivity|].
  destruct ((EMA_S prev_row <=? EMA_F prev_row)
            && (EMA_F last_row <? EMA_S last_row))%num;
    [split; reflexivity|].
  destruct (Fin (998 # 1000) * res_1 <=? close)%num; split; reflexivity.
Qed.

(** C1: on every series of at least 30 bars, the message and level of
    the snapshot are those of the spec's ordered rule list (golden
    cross, death cross, near resistance, else monitoring; first match
    wins) applied to the previous and latest rows of the augmented
    frame, the latest close and R1. *)
Theorem alert_priority_order (df : Frame) (v_chg : num) (ema_f ema_s : nat) :
  (30 <= length df)%nat ->
  exists aug info prev_row last_row,
    analyze_stock (Some df) v_chg ema_f ema_s = Ok (Some aug, Some info) /\
    iloc_neg aug 2 = Ok prev_row /\
    iloc_neg aug 1 = Ok last_row /\
    EMA_F prev_row = ema_at (map Close df) ema_f (length df - 2) /\
    EMA_S prev_row = ema_at (map Close df) ema_s (length df - 2) /\
    EMA_F last_row = ema_at (map Close df) ema_f (length df - 1) /\
    EMA_S last_row = ema_at (map Close df) ema_s (length df - 1) /\
    price info = Fin (Close (bar last_row)) /\
    let '(l, s) := spec_classify (EMA_F prev_row) (EMA_S prev_row)
                     (EMA_F last_row) (EMA_S last_row)
                     (price info) (res info) in
    label_of_msg (msg info) = Some l /\
    severity_of_level (level info) = Some s.
Proof.
  intros Hlen.
  exists (augment df ema_f ema_s).
  eexists. exists (row_at df ema_f ema_s (length df - 2)).
  exists (row_at df ema_f ema_s (length df - 1)).
  split; [now apply analyze_stock_accepted|].
  rewrite !augment_iloc by lia.
  do 7 (split; [reflexivity|]).
  apply alert_spec_classify.
Qed.

Lemma alert_priority_order_witness :
  exists aug info prev_row last_row,
    analyze_stock (Some (sample 30)) (Fin 0) 9 21
      = Ok (Some aug, Some info) /\
    iloc_neg aug 2 = Ok prev_row /\
    iloc_neg aug 1 = Ok last_row /\
    EMA_F prev_row = ema_at (map Close (sample 30)) 9 28 /\
    EMA_S prev_row = ema_at (map Close (sample 30)) 21 28 /\
    EMA_F last_row = ema_at (map Close (sample 30)) 9 29 /\
    EMA_S last_row = ema_at (map Close (sample 30)) 21 29 /\
    price info = Fin (Close (bar last_row)) /\
    let '(l, s) := spec_classify (EMA_F prev_row) (EMA_S prev_row)
                     (EMA_F last_row) (EMA_S last_row)
                     (price info) (res info) in
    label_of_msg (msg info) = Some l /\
    severity_of_level (level info) = Some s.
Proof.
  apply (alert_priority_order (sample 30) (Fin 0) 9 21).
  vm_compute. lia.
Defined.

(** The scenarios of the spec, on rows that carry the stated values. *)
Example alert_golden_scenario :
  alert (mkRow (mkBar 0 0 0 0 0 0) (Fin (98 # 10)) (Fin 10) NaN NaN)
        (mkRow (mkBar 1 0 0 0 0 0) (Fin (102 # 10)) (Fin (101 # 10)) NaN NaN)
        (Fin 100) (Fin 200)
  = (msg_golden, "error"%string).
Proof. reflexivity. Qed.

Example alert_resistance_scenario :
  alert (mkRow (mkBar 0 0 0 0 0 0) (Fin 9) (Fin 10) NaN NaN)
        (mkRow (mkBar 1 0 0 0 0 0) (Fin 9) (Fin 10) NaN NaN)
        (Fin (1049 # 10)) (Fin 105)
  = (msg_resistance, "warning"%string).
Proof. reflexivity. Qed.

Example alert_monitoring_scenario :
  alert (mkRow (mkBar 0 0 0 0 0 0) (Fin 9) (Fin 10) NaN NaN)
        (mkRow (mkBar 1 0 0 0 0 0) (Fin 9) (Fin 10) NaN NaN)
        (Fin 100) (Fin 105)
  = (msg_monitoring, "success"%string).
Proof. reflexivity. Qed.

(** C5: the golden-cross test and the death-cross test of the alert
    chain never hold together, whatever the two rows are. *)
Theorem crossover_exclusive (prev_row last_row : Row) :
  golden_cross prev_row last_row && death_cross prev_row last_row = false.
Proof.
  unfold golden_cross, death_cross, Num.gtb.
  pose proof (ltb_asym (EMA_S last_row) (EMA_F last_row)) as H.
  destruct (EMA_S last_row <? EMA_F last_row)%num,
           (EMA_F last_row <? EMA_S last_row)%num;
    try discriminate H; rewrite ?andb_false_r; reflexivity.
Qed.

(** ** The warm-up guard *)

Lemma analyze_stock_returns (df : option Frame) (v_chg : num)
    (ema_f ema_s : nat) :
  exists r, analyze_stock df v_chg ema_f ema_s = Ok r.
Proof.
  destruct df as [rows|]; [|eexists; reflexivity].
  destruct (Nat.lt_ge_cases (length rows) 30) as [Hlt|Hge].
  - eexists. unfold analyze_stock. cbn [is_None len bind].
    replace (length rows <? 30)%nat with true
      by (symmetry; apply Nat.ltb_lt; lia).
    reflexivity.
  - eexists. now apply analyze_stock_accepted.
Qed.

(** C2: a series of fewer than 30 bars, the empty one included, yields
    the pair (None, None): nothing is raised and no snapshot is built. *)
Theorem analyze_stock_short (df : Frame) (v_chg : num) (ema_f ema_s : nat) :
  (length df < 30)%nat ->
  analyze_stock (Some df) v_chg ema_f ema_s = Ok (None, None).
Proof.
  intros Hlen. unfold analyze_stock. cbn [is_None len bind].
  replace (length df <? 30)%nat with true
    by (symmetry; apply Nat.ltb_lt; lia).
  reflexivity.
Qed.

Lemma analyze_stock_short_witness :
  analyze_stock (Some (sample 29)) (Fin 0) 9 21 = Ok (None, None).
Proof.
  apply (analyze_stock_short (sample 29) (Fin 0) 9 21).
  vm_compute. lia.
Defined.

(** C10: when the provider returned nothing ([None]), the result is the
    pair (None, None) and nothing is raised: [len] is never asked of
    the absent frame. *)
Theorem analyze_stock_no_data (v_chg : num) (ema_f ema_s : nat) :
  analyze_stock None v_chg ema_f ema_s = Ok (None, None).
Proof. reflexivity. Qed.

(** ** The volatility index *)

(** C8: an absent series or one of fewer than 2 bars gives exactly
    (20.0, 0.0); a series that ends with the bars [b2; b1] gives the
    close of [b1] and the close of [b1] minus the close of [b2]. *)
Theorem get_vix_status_spec (vix : option Frame) :
  (match vix with
   | None => True
   | Some rows => (length rows < 2)%nat
   end -> get_vix_status vix = Ok (Fin 20, Fin 0)) /\
  (forall pre b2 b1, vix = Some (pre ++ [b2; b1]) ->
     get_vix_status vix
     = Ok (Fin (Close b1), Fin (Close b1 - Close b2))).
Proof.
  split.
  - destruct vix as [rows|]; [|reflexivity].
    intros Hlen. unfold get_vix_status. cbn [is_None len bind].
    replace (length rows <? 2)%nat with true
      by (symmetry; apply Nat.ltb_lt; lia).
    reflexivity.
  - intros pre b2 b1 ->. unfold get_vix_status.
    cbn [is_None len bind column].
    replace (length (pre ++ [b2; b1]) <? 2)%nat with false
      by (symmetry; apply Nat.ltb_ge; rewrite length_app; cbn; lia).
    rewrite map_app. cbn [map].
    destruct (iloc_neg_app2 (map Close pre) (Close b2) (Close b1)) as [-> ->].
    reflexivity.
Qed.

Lemma get_vix_status_spec_witness :
  get_vix_status (Some (sample 1)) = Ok (Fin 20, Fin 0) /\
  get_vix_status (Some (sample 1 ++ [sample_bar 1; sample_bar 2]))
  = Ok (Fin (Close (sample_bar 2)),
        Fin (Close (sample_bar 2) - Close (sample_bar 1))).
Proof.
  split.
  - apply (proj1 (get_vix_status_spec (Some (sample 1)))).
    vm_compute. lia.
  - apply (proj2 (get_vix_status_spec
                    (Some (sample 1 ++ [sample_bar 1; sample_bar 2])))
                 (sample 1) (sample_bar 1) (sample_bar 2)).
    reflexivity.
Defined.

(** ** Volume ratio and pivot levels *)

Lemma row_at_Vol_MA (df : Frame) (ema_f ema_s : nat) :
  (10 <= length df)%nat ->
  Vol_MA (row_at df ema_f ema_s (length df - 1))
  = Fin (Qmean (skipn (length df - 10) (map Volume df))).
Proof.
  intros Hlen. cbn [row_at Vol_MA]. unfold sma_at.
  replace (S (length df - 1)) with (length df) by lia.
  replace (length df <? 10)%nat with false
    by (symmetry; apply Nat.ltb_ge; lia).
  cbn [Nat.eqb orb].
  rewrite firstn_all2; [reflexivity|].
  rewrite length_skipn, length_map. lia.
Qed.

Lemma row_at_bar (df : Frame) (ema_f ema_s i : nat) :
  bar (row_at df ema_f ema_s i) = nth i df (mkBar 0 0 0 0 0 0).
Proof. reflexivity. Qed.



(** C7: on every series of at least 30 bars, with P = (high + low +
    close) / 3 of the latest bar, the snapshot has R1 = 2P - low and
    S1 = 2P - high; for high = 110, low = 90, close = 100 that is
    P = 100, R1 = 110, S1 = 90. *)
Theorem pivot_levels (df : Frame) (v_chg : num) (ema_f ema_s : nat) :
  (30 <= length df)%nat ->
  exists aug info last_row,
    analyze_stock (Some df) v_chg ema_f ema_s = Ok (Some aug, Some info) /\
    iloc_neg aug 1 = Ok last_row /\
    bar last_row = nth (length df - 1) df (mkBar 0 0 0 0 0 0) /\
    let h := High (bar last_row) in
    let l := Low (bar last_row) in
    let c := Close (bar last_row) in
    let P := (h + l + c) / 3 in
    pivot_point (Fin h) (Fin l) (Fin c) = Fin P /\
    res info = Fin (2 * P - l) /\
    sup info = Fin (2 * P - h) /\
    (h == 110 -> l == 90 -> c == 100 ->
     P == 100 /\ (res info =~ Fin 110)%num /\ (sup info =~ Fin 90)%num).
Proof.
  intros Hlen.
  exists (augment df ema_f ema_s).
  eexists. exists (row_at df ema_f ema_s (length df - 1)).
  split; [now apply analyze_stock_accepted|].
  split; [apply augment_iloc; lia|].
  split; [apply row_at_bar|].
  cbn zeta.
  split; [reflexivity|]. split; [reflexivity|]. split; [reflexivity|].
  intros Hh Hl Hc. cbn [snapshot res sup].
  set (h := High _) in *. set (l := Low _) in *. set (c := Close _) in *.
  split; [rewrite Hh, Hl, Hc; reflexivity|].
  split.
  - change (2 * ((h + l + c) / 3) - l == 110).
    rewrite Hh, Hl, Hc. reflexivity.
  - change (2 * ((h + l + c) / 3) - h == 90).
    rewrite Hh, Hl, Hc. reflexivity.
Qed.

Lemma pivot_levels_witness :
  exists aug info last_row,
    analyze_stock (Some pivot_sample) (Fin 0) 9 21
      = Ok (Some aug, Some info) /\
    iloc_neg aug 1 = Ok last_row /\
    (High (bar last_row) == 110 /\ Low (bar last_row) == 90 /\
     Close (bar last_row) == 100) /\
    (res info =~ Fin 110)%num /\ (sup info =~ Fin 90)%num.
Proof.
  destruct (pivot_levels pivot_sample (Fin 0) 9 21) as
    (aug & info & last_row & Ha & Hl & Hb & _ & _ & _ & Hex).
  { vm_compute. lia. }
  exists aug, info, last_row.
  assert (Hbar : High (bar last_row) == 110 /\ Low (bar last_row) == 90 /\
                 Close (bar last_row) == 100).
  { rewrite Hb. vm_compute. repeat split; reflexivity. }
  destruct Hbar as (Hh & Hlo & Hc).
  destruct (Hex Hh Hlo Hc) as (_ & Hr & Hs).
  repeat split; assumption.
Defined.

(** ** Bounds of the indicators *)

Lemma nonneg_firstn (n : nat) (xs : list Q) : nonneg xs -> nonneg (firstn n xs).
Proof.
  intros H. revert n.
  induction H as [|x xs Hx _ IH]; intros [|n]; cbn; try constructor.
  - exact Hx.
  - apply IH.
Qed.

Lemma nonneg_skipn (n : nat) (xs : list Q) : nonneg xs -> nonneg (skipn n xs).
Proof.
  intros H. revert n.
  induction H as [|x xs Hx Hxs IH]; intros [|n]; cbn.
  - constructor.
  - constructor.
  - constructor; assumption.
  - apply IH.
Qed.

Lemma nonneg_gains (ds : list Q) : nonneg (map gain ds).
Proof.
  induction ds as [|d ds IH]; cbn; constructor.
  - apply Q.le_max_l.
  - exact IH.
Qed.

Lemma nonneg_losses (ds : list Q) : nonneg (map loss ds).
Proof.
  induction ds as [|d ds IH]; cbn; constructor.
  - apply Q.le_max_l.
  - exact IH.
Qed.

Lemma Qnat_nonneg (n : nat) : 0 <= Qnat n.
Proof.
  unfold Qnat, Qle. cbn. lia.
Qed.

Lemma Qnat_ge_1 (n : nat) : (1 <= n)%nat -> 1 <= Qnat n.
Proof.
  intros H. unfold Qnat, Qle. cbn. lia.
Qed.

Lemma Qdiv_nonneg (a b : Q) : 0 <= a -> 0 <= b -> 0 <= a / b.
Proof.
  intros Ha Hb. apply Qmult_le_0_compat; [assumption|].
  now apply Qinv_le_0_compat.
Qed.

Lemma Qsum_nonneg (xs : list Q) : nonneg xs -> 0 <= Qsum xs.
Proof.
  induction 1 as [|x xs Hx _ IH]; unfold Qsum in *; cbn [fold_right]; lra.
Qed.

Lemma Qmean_nonneg (xs : list Q) : nonneg xs -> 0 <= Qmean xs.
Proof.
  intros H. apply Qdiv_nonneg; [now apply Qsum_nonneg | apply Qnat_nonneg].
Qed.

Section Wilder.

Variable n : nat.
Hypothesis Hn : (2 <= n)%nat.

Lemma wilder_step_nonneg (prev x : Q) :
  0 <= prev -> 0 <= x -> 0 <= (prev * (Qnat n - 1) + x) / Qnat n.
Proof.
  intros Hp Hx. apply Qdiv_nonneg; [|apply Qnat_nonneg].
  assert (H1 : 1 <= Qnat n) by (apply Qnat_ge_1; lia).
  assert (0 <= prev * (Qnat n - 1)) by (apply Qmult_le_0_compat; lra).
  lra.
Qed.

Lemma wilder_step_pos (prev x : Q) :
  0 <= prev -> 0 <= x -> 0 < prev + x ->
  0 < (prev * (Qnat n - 1) + x) / Qnat n.
Proof.
  intros Hp Hx Hsum.
  assert (H2 : 2 <= Qnat n) by (unfold Qnat, Qle; cbn; lia).
  assert (Hinv : 0 < / Qnat n) by (apply Qinv_lt_0_compat; lra).
  assert (Hm : 0 <= prev * (Qnat n - 2))
    by (apply Qmult_le_0_compat; lra).
  apply Qmult_lt_0_compat; [|exact Hinv].
  assert (E : prev * (Qnat n - 1) + x == prev * (Qnat n - 2) + (prev + x))
    by ring.
  lra.
Qed.

Lemma wilder_run_nonneg (xs : list Q) :
  nonneg xs -> forall prev, 0 <= prev -> 0 <= wilder_run n prev xs.
Proof.
  intros H. induction H as [|x xs Hx _ IH]; intros prev Hp; cbn.
  - assumption.
  - apply IH. now apply wilder_step_nonneg.
Qed.

Lemma wilder_run_pos (xs : list Q) :
  nonneg xs -> forall prev, 0 < prev -> 0 < wilder_run n prev xs.
Proof.
  intros H. induction H as [|x xs Hx _ IH]; intros prev Hp; cbn.
  - assumption.
  - apply IH. apply wilder_step_pos; lra.
Qed.

Lemma wilder_run_pos_later (xs : list Q) :
  nonneg xs -> Exists (Qlt 0) xs ->
  forall prev, 0 <= prev -> 0 < wilder_run n prev xs.
Proof.
  intros H. induction H as [|x xs Hx Hxs IH]; intros Hex prev Hp.
  - inversion Hex.
  - cbn [wilder_run]. inversion Hex as [? ? Hpos | ? ? Hlater]; subst.
    + apply wilder_run_pos; [exact Hxs|]. apply wilder_step_pos; lra.
    + apply IH; [exact Hlater|]. now apply wilder_step_nonneg.
Qed.

(** The smoothed value of a list of non-negative numbers is positive as
    soon as one of them is. *)
Lemma wilder_run_some_pos (x : Q) (xs : list Q) :
  nonneg (x :: xs) -> Exists (Qlt 0) (x :: xs) -> 0 < wilder_run n x xs.
Proof.
  intros H Hex. inversion H as [|? ? Hx Hxs]; subst.
  inversion Hex as [? ? Hpos | ? ? Hlater]; subst.
  - now apply wilder_run_pos.
  - now apply wilder_run_pos_later.
Qed.

End Wilder.

Lemma rsi_value_range (g l : Q) :
  0 <= g -> 0 <= l -> 0 < g + l ->
  exists r, rsi_value g l = Fin r /\ 0 <= r <= 100.
Proof.
  intros Hg Hl Hsum. unfold rsi_value. cbn [Num.mul Num.add Num.div].
  destruct (Qeq_bool (g + l) 0) eqn:E.
  - apply Qeq_bool_iff in E. lra.
  - eexists. split; [reflexivity|].
    assert (Hinv : 0 < / (g + l)) by now apply Qinv_lt_0_compat.
    assert (Hone : (g + l) * / (g + l) == 1) by (apply Qmult_inv_r; lra).
    unfold Qdiv. set (y := / (g + l)) in *.
    assert (Ha : 0 <= g * y) by (apply Qmult_le_0_compat; lra).
    assert (Hb : 0 <= l * y) by (apply Qmult_le_0_compat; lra).
    assert (Hab : g * y + l * y == 1) by (rewrite <- Hone; ring).
    assert (Er : 100 * g * y == 100 * (g * y)) by ring.
    split; lra.
Qed.

Lemma diffs_nth (xs : list Q) :
  forall prev i, (i < length xs)%nat ->
    nth i (diffs prev xs) 0 = nth i xs 0 - nth i (prev :: xs) 0.
Proof.
  induction xs as [|x xs IH]; intros prev i Hi; [cbn in Hi; lia|].
  destruct i as [|i]; [reflexivity|].
  cbn [diffs nth]. rewrite IH by (cbn in Hi; lia). reflexivity.
Qed.

Lemma diffs_length (xs : list Q) (prev : Q) : length (diffs prev xs) = length xs.
Proof.
  revert prev. induction xs as [|x xs IH]; intros prev; cbn; [reflexivity|].
  now rewrite IH.
Qed.

Lemma deltas_length (xs : list Q) : length (deltas xs) = (length xs - 1)%nat.
Proof.
  destruct xs as [|x xs]; [reflexivity|].
  cbn [deltas length]. rewrite diffs_length. lia.
Qed.

Lemma deltas_nth (xs : list Q) (i : nat) :
  (S i < length xs)%nat ->
  nth i (deltas xs) 0 = nth (S i) xs 0 - nth i xs 0.
Proof.
  destruct xs as [|x xs]; intros Hi; [cbn in Hi; lia|].
  cbn [deltas]. rewrite diffs_nth by (cbn in Hi; lia). reflexivity.
Qed.

Lemma some_gain_or_loss (ds : list Q) (d : Q) :
  In d ds -> ~ d == 0 ->
  Exists (Qlt 0) (map gain ds) \/ Exists (Qlt 0) (map loss ds).
Proof.
  intros Hin Hd.
  destruct (Qlt_le_dec 0 d) as [Hpos|Hle].
  - left. apply Exists_exists. exists (gain d).
    split; [now apply in_map|].
    unfold gain. apply Q.max_lt_iff. now right.
  - right. apply Exists_exists. exists (loss d).
    split; [now apply in_map|].
    unfold loss. apply Q.max_lt_iff. right.
    destruct (Qlt_le_dec d 0) as [Hneg|Hge]; [lra|].
    exfalso. apply Hd. lra.
Qed.

Lemma rsi_at_range (xs : list Q) (i j : nat) :
  (14 <= i)%nat -> (i < length xs)%nat ->
  (S j <= i)%nat -> ~ nth (S j) xs 0 == nth j xs 0 ->
  exists r, rsi_at xs 14 i = Fin r /\ 0 <= r <= 100.
Proof.
  intros Hi Hlen Hj Hne. unfold rsi_at.
  replace (i <? 14)%nat with false by (symmetry; apply Nat.ltb_ge; lia).
  cbn [Nat.eqb orb].
  assert (Hin : In (nth j (deltas xs) 0) (firstn i (deltas xs))).
  { assert (E : nth j (firstn i (deltas xs)) 0 = nth j (deltas xs) 0).
    { rewrite nth_firstn.
      replace (j <? i)%nat with true by (symmetry; apply Nat.ltb_lt; lia).
      reflexivity. }
    rewrite <- E. apply nth_In. rewrite length_firstn, deltas_length. lia. }
  assert (Hd : ~ nth j (deltas xs) 0 == 0).
  { rewrite deltas_nth by lia. intros E. apply Hne. lra. }
  destruct (firstn i (deltas xs)) as [|d rest] eqn:Eds; [destruct Hin|].
  change (gain d :: map gain rest) with (map gain (d :: rest)) in *.
  pose proof (nonneg_gains (d :: rest)) as Hg.
  pose proof (nonneg_losses (d :: rest)) as Hl.
  cbn [map] in Hg, Hl.
  assert (H0g : 0 <= wilder_run 14 (gain d) (map gain rest)).
  { inversion Hg; subst. now apply wilder_run_nonneg; [lia| |]. }
  assert (H0l : 0 <= wilder_run 14 (loss d) (map loss rest)).
  { inversion Hl; subst. now apply wilder_run_nonneg; [lia| |]. }
  apply rsi_value_range; [exact H0g | exact H0l |].
  destruct (some_gain_or_loss _ _ Hin Hd) as [Hex|Hex]; cbn [map] in Hex.
  - pose proof (wilder_run_some_pos 14 ltac:(lia) _ _ Hg Hex). lra.
  - pose proof (wilder_run_some_pos 14 ltac:(lia) _ _ Hl Hex). lra.
Qed.

Lemma volume_ratio_nonneg (vol m : Q) :
  0 <= vol -> 0 <= m ->
  exists v,
    (if (Fin m !=? Fin 0)%num then (Fin vol / Fin m)%num else Fin 1) = Fin v
    /\ v = (if Qeq_bool m 0 then 1 else vol / m)
    /\ 0 <= v.
Proof.
  intros Hv Hm. unfold Num.neqb. cbn [Num.eqb Num.div].
  destruct (Qeq_bool m 0); cbn [negb].
  - exists 1. split; [reflexivity|]. split; [reflexivity | lra].
  - exists (vol / m). split; [reflexivity|].
    split; [reflexivity | now apply Qdiv_nonneg].
Qed.

Lemma nth_Forall {A : Type} (P : A -> Prop) (xs : list A) (i : nat) (d : A) :
  Forall P xs -> (i < length xs)%nat -> P (nth i xs d).
Proof.
  intros H Hi. rewrite Forall_forall in H. apply H. now apply nth_In.
Qed.




(** ** The fixed floor and the division by the open *)

(** C3: the guard compares the length with the constant 30 only.  A
    series of at least 30 bars that is shorter than the generalised
    floor [max(slow, 14, 10) + 1] is accepted: a snapshot is returned,
    and the slow EMA of the previous row, which the crossover tests
    read, is undefined. *)
Theorem fixed_floor_accepts_cold_slow_ema
    (df : Frame) (v_chg : num) (ema_f ema_s : nat) :
  (30 <= length df)%nat ->
  (length df < warmup_floor ema_s)%nat ->
  exists aug info prev_row,
    analyze_stock (Some df) v_chg ema_f ema_s = Ok (Some aug, Some info) /\
    iloc_neg aug 2 = Ok prev_row /\
    EMA_S prev_row = NaN.
Proof.
  intros Hlen Hfloor. unfold warmup_floor in Hfloor.
  exists (augment df ema_f ema_s). eexists.
  exists (row_at df ema_f ema_s (length df - 2)).
  split; [now apply analyze_stock_accepted|].
  split; [apply augment_iloc; lia|].
  cbn [row_at EMA_S]. unfold ema_at.
  replace (S (length df - 2) <? ema_s)%nat with true
    by (symmetry; apply Nat.ltb_lt; lia).
  now rewrite orb_true_r.
Qed.

Lemma fixed_floor_accepts_cold_slow_ema_witness :
  exists aug info prev_row,
    analyze_stock (Some (sample 30)) (Fin 0) 9 60
      = Ok (Some aug, Some info) /\
    iloc_neg aug 2 = Ok prev_row /\
    EMA_S prev_row = NaN.
Proof.
  apply (fixed_floor_accepts_cold_slow_ema (sample 30) (Fin 0) 9 60).
  - vm_compute. lia.
  - vm_compute. lia.
Defined.



(** ** What a caller of [analyze_stock] can rely on *)

Lemma map_nth_seq_id {A : Type} (rows : list A) (d : A) :
  map (fun i => nth i rows d) (seq 0 (length rows)) = rows.
Proof.
  apply (nth_ext _ _ d d).
  - now rewrite length_map, length_seq.
  - intros i Hi. rewrite length_map, length_seq in Hi.
    now rewrite nth_map_seq.
Qed.

Lemma augment_bars (df : Frame) (ema_f ema_s : nat) :
  map bar (augment df ema_f ema_s) = df.
Proof.
  rewrite augment_rows, map_map. cbn [row_at bar].
  apply map_nth_seq_id.
Qed.

Lemma guard_rejects_short (df : Frame) (v_chg : num) (ema_f ema_s : nat) :
  (length df < 30)%nat ->
  analyze_stock (Some df) v_chg ema_f ema_s = Ok (None, None).
Proof.
  intros Hlen. unfold analyze_stock. cbn [is_None len bind].
  replace (length df <? 30)%nat with true
    by (symmetry; apply Nat.ltb_lt; lia).
  reflexivity.
Qed.

Lemma analyze_stock_both_or_neither_aux
    (df : option Frame) (v_chg : num) (ema_f ema_s : nat) :
  (match df with
   | None => True
   | Some rows => (length rows < 30)%nat
   end /\ analyze_stock df v_chg ema_f ema_s = Ok (None, None))
  \/
  (exists rows aug info,
     df = Some rows /\ (30 <= length rows)%nat /\
     analyze_stock df v_chg ema_f ema_s = Ok (Some aug, Some info)).
Proof.
  destruct df as [rows|]; [|left; split; [exact I | reflexivity]].
  destruct (Nat.lt_ge_cases (length rows) 30) as [Hlt|Hge].
  - left. split; [exact Hlt | now apply guard_rejects_short].
  - right. exists rows. eexists. eexists.
    split; [reflexivity|]. split; [exact Hge|].
    now apply analyze_stock_accepted.
Qed.

(** X1: for every frame, absent, short or long, whose EMA lengths fit
    it when it has 30 rows or more, nothing is raised, and the result
    is either the pair (None, None), exactly when the frame is absent
    or has fewer than 30 rows, or a frame together with its info: a
    frame never comes without the info that the detail section
    subscripts. *)
Theorem analyze_stock_both_or_neither
    (df : option Frame) (v_chg : num) (ema_f ema_s : nat) :
  match df with
  | None => True
  | Some rows => (30 <= length rows)%nat -> windows_fit ema_f ema_s rows
  end ->
  (match df with
   | None => True
   | Some rows => (length rows < 30)%nat
   end /\ analyze_stock df v_chg ema_f ema_s = Ok (None, None))
  \/
  (exists rows aug info,
     df = Some rows /\ (30 <= length rows)%nat /\
     analyze_stock df v_chg ema_f ema_s = Ok (Some aug, Some info)).
Proof.
  intros _.
  destruct df as [rows|]; [|left; split; [exact I | reflexivity]].
  destruct (Nat.lt_ge_cases (length rows) 30) as [Hlt|Hge].
  - left. split; [exact Hlt | now apply guard_rejects_short].
  - right. exists rows. eexists. eexists.
    split; [reflexivity|]. split; [exact Hge|].
    now apply analyze_stock_accepted.
Qed.

Lemma analyze_stock_both_or_neither_witness :
  exists aug info,
    analyze_stock (Some (sample 30)) (Fin 0) 9 21
    = Ok (Some aug, Some info).
Proof.
  destruct (analyze_stock_both_or_neither (Some (sample 30)) (Fin 0) 9 21)
    as [[Hs _] | (rows & aug & info & _ & _ & H)].
  - intros _. vm_compute. lia.
  - exfalso. vm_compute in Hs. lia.
  - exists aug, info. exact H.
Defined.

(** X2: the frame returned for an accepted series whose EMA lengths
    fit it has the rows of the input, in the same order, and beside
    them the four columns, each aligned with the rows: the fast and the
    slow EMA of the closes with the two configured lengths, the RSI of
    the closes over 14 bars and the moving average of the volumes over
    10 bars. *)
Theorem returned_frame_columns
    (df : Frame) (v_chg : num) (ema_f ema_s : nat) :
  (30 <= length df)%nat ->
  windows_fit ema_f ema_s df ->
  exists aug info,
    analyze_stock (Some df) v_chg ema_f ema_s = Ok (Some aug, Some info) /\
    map bar aug = df /\
    map EMA_F aug = ema (map Close df) ema_f /\
    map EMA_S aug = ema (map Close df) ema_s /\
    map RSI aug = ta_rsi (map Close df) 14 /\
    map Vol_MA aug = sma (map Volume df) 10.
Proof.
  intros Hlen _. exists (augment df ema_f ema_s). eexists.
  split; [now apply analyze_stock_accepted|].
  split; [apply augment_bars|].
  rewrite augment_rows, !map_map. cbn [row_at EMA_F EMA_S RSI Vol_MA].
  unfold ema, ta_rsi, sma. rewrite !length_map.
  repeat split; reflexivity.
Qed.

Lemma returned_frame_columns_witness :
  exists aug info,
    analyze_stock (Some (sample 30)) (Fin 0) 9 21
      = Ok (Some aug, Some info) /\
    map bar aug = sample 30 /\
    map EMA_F aug = ema (map Close (sample 30)) 9 /\
    map EMA_S aug = ema (map Close (sample 30)) 21 /\
    map RSI aug = ta_rsi (map Close (sample 30)) 14 /\
    map Vol_MA aug = sma (map Volume (sample 30)) 10.
Proof.
  apply (returned_frame_columns (sample 30) (Fin 0) 9 21).
  - vm_compute. lia.
  - vm_compute. lia.
Defined.

(** X3: a golden-cross alert always comes with the Bullish trend, and
    a death-cross alert with the Bearish one. *)
Theorem cross_alert_matches_trend
    (df : Frame) (v_chg : num) (ema_f ema_s : nat) :
  (30 <= length df)%nat ->
  exists aug info,
    analyze_stock (Some df) v_chg ema_f ema_s = Ok (Some aug, Some info) /\
    (msg info = msg_golden -> trend info = " Bullish"%string) /\
    (msg info = msg_death -> trend info = " Bearish"%string).
Proof.
  intros Hlen. exists (augment df ema_f ema_s). eexists.
  split; [now apply analyze_stock_accepted|].
  cbn [snapshot msg trend]. unfold alert.
  set (prev := row_at df ema_f ema_s (length df - 2)).
  set (last := row_at df ema_f ema_s (length df - 1)).
  destruct (golden_cross prev last) eqn:Hg.
  - unfold golden_cross in Hg. apply andb_true_iff in Hg as [_ Hg].
    rewrite Hg. cbn [fst].
    split; [reflexivity | intros H; discriminate H].
  - destruct (death_cross prev last) eqn:Hd.
    + unfold death_cross in Hd. apply andb_true_iff in Hd as [_ Hd].
      pose proof (ltb_asym (EMA_F last) (EMA_S last)) as Ha.
      rewrite Hd in Ha. cbn [andb] in Ha. unfold Num.gtb. rewrite Ha.
      cbn [fst]. split; [intros H; discriminate H | reflexivity].
    + destruct (near_resistance _ _); cbn [fst];
        split; intros H; discriminate H.
Qed.

Lemma cross_alert_matches_trend_witness :
  exists aug info,
    analyze_stock (Some cross_sample) (Fin 0) 9 21
      = Ok (Some aug, Some info) /\
    msg info = msg_golden /\ trend info = " Bullish"%string.
Proof.
  destruct (cross_alert_matches_trend cross_sample (Fin 0) 9 21)
    as (aug & info & Ha & Hg & _).
  { vm_compute. lia. }
  exists aug, info.
  assert (Hm : msg info = msg_golden).
  { rewrite analyze_stock_accepted in Ha by (vm_compute; lia).
    injection Ha as _ <-. vm_compute. reflexivity. }
  split; [exact Ha|]. split; [exact Hm | exact (Hg Hm)].
Defined.

Lemma leb_nan_l (x : num) : (NaN <=? x)%num = false.
Proof. destruct x; reflexivity. Qed.

Lemma leb_nan_r (x : num) : (x <=? NaN)%num = false.
Proof. destruct x; reflexivity. Qed.

Lemma ltb_nan_r (x : num) : (x <? NaN)%num = false.
Proof. destruct x; reflexivity. Qed.

Lemma cross_tests_nan (prev_row last_row : Row) :
  EMA_F prev_row = NaN \/ EMA_S prev_row = NaN \/
  EMA_F last_row = NaN \/ EMA_S last_row = NaN ->
  golden_cross prev_row last_row = false /\
  death_cross prev_row last_row = false.
Proof.
  unfold golden_cross, death_cross, Num.gtb, Num.geb.
  intros [H | [H | [H | H]]]; rewrite H;
    rewrite ?leb_nan_l, ?leb_nan_r, ?ltb_nan_r, ?andb_false_r;
    cbn [Num.ltb andb]; split; reflexivity.
Qed.

(** X4: on a series that has exactly as many bars as the slow EMA is
    long, the previous row has no slow EMA yet, and no cross is
    reported whatever the prices are: the level is never "error" and
    the message is the near-resistance or the monitoring one. *)
Theorem first_slow_ema_bar_reports_no_cross
    (df : Frame) (v_chg : num) (ema_f ema_s : nat) :
  (30 <= length df)%nat ->
  (1 <= ema_f <= length df)%nat ->
  ema_s = length df ->
  exists aug info,
    analyze_stock (Some df) v_chg ema_f ema_s = Ok (Some aug, Some info) /\
    ema_at (map Close df) ema_s (length df - 2) = NaN /\
    level info <> "error"%string /\
    (msg info = msg_resistance \/ msg info = msg_monitoring).
Proof.
  intros Hlen _ Hs. exists (augment df ema_f ema_s). eexists.
  split; [now apply analyze_stock_accepted|].
  assert (Hnan : ema_at (map Close df) ema_s (length df - 2) = NaN).
  { unfold ema_at.
    replace (S (length df - 2) <? ema_s)%nat with true
      by (symmetry; apply Nat.ltb_lt; lia).
    now rewrite orb_true_r. }
  split; [exact Hnan|].
  cbn [snapshot level msg].
  destruct (cross_tests_nan (row_at df ema_f ema_s (length df - 2))
              (row_at df ema_f ema_s (length df - 1))) as [Hg Hd].
  { right. left. exact Hnan. }
  unfold alert. rewrite Hg, Hd.
  destruct (near_resistance _ _); cbn [fst snd].
  - split; [intros E; discriminate E | left; reflexivity].
  - split; [intros E; discriminate E | right; reflexivity].
Qed.

Lemma first_slow_ema_bar_reports_no_cross_witness :
  exists aug info,
    analyze_stock (Some cross_sample) (Fin 0) 9 30
      = Ok (Some aug, Some info) /\
    ema_at (map Close cross_sample) 30 (length cross_sample - 2) = NaN /\
    level info <> "error"%string /\
    (msg info = msg_resistance \/ msg info = msg_monitoring).
Proof.
  apply (first_slow_ema_bar_reports_no_cross cross_sample (Fin 0) 9 30).
  - vm_compute. lia.
  - vm_compute. lia.
  - vm_compute. reflexivity.
Defined.

(** ** The volatility banner *)

Lemma fetch_data_short (d : Download) :
  match d with
  | download_raised => True
  | downloaded data => (length data < 2)%nat
  end ->
  match fetch_data d with
  | None => True
  | Some rows => (length rows < 2)%nat
  end.
Proof.
  destruct d as [|data]; cbn [fetch_data]; [trivial|].
  destruct data; cbn [empty]; trivial.
Qed.

Lemma fetch_data_nonempty (data : Frame) :
  data <> [] -> fetch_data (downloaded data) = Some data.
Proof.
  destruct data; [congruence | reflexivity].
Qed.

Lemma vix_fallback (vix : option Frame) :
  match vix with
  | None => True
  | Some rows => (length rows < 2)%nat
  end ->
  get_vix_status vix = Ok (Fin 20, Fin 0).
Proof.
  destruct vix as [rows|]; [|reflexivity].
  intros Hlen. unfold get_vix_status. cbn [is_None len bind].
  replace (length rows <? 2)%nat with true
    by (symmetry; apply Nat.ltb_lt; lia).
  reflexivity.
Qed.

Lemma vix_last_two (pre : Frame) (b2 b1 : Bar) :
  get_vix_status (Some (pre ++ [b2; b1]))
  = Ok (Fin (Close b1), Fin (Close b1 - Close b2)).
Proof.
  unfold get_vix_status. cbn [is_None len bind column].
  replace (length (pre ++ [b2; b1]) <? 2)%nat with false
    by (symmetry; apply Nat.ltb_ge; rewrite length_app; cbn; lia).
  rewrite map_app. cbn [map].
  destruct (iloc_neg_app2 (map Close pre) (Close b2) (Close b1)) as [-> ->].
  reflexivity.
Qed.

(** X6: whatever the download of the index did, the banner is drawn
    and nothing is raised.  A failed, empty or one-bar download shows
    20.0 with the "stable" hint; otherwise the last close is shown, with
    the "volatile" hint exactly when it exceeds the close before it by
    more than 0.2. *)
Theorem vix_banner_spec (d : Download) :
  (match d with
   | download_raised => True
   | downloaded data => (length data < 2)%nat
   end -> vix_banner d = Ok (Fin 20, banner_stable)) /\
  (forall pre b2 b1, d = downloaded (pre ++ [b2; b1]) ->
     exists hint,
       vix_banner d = Ok (Fin (Close b1), hint) /\
       (2 # 10 < Close b1 - Close b2 -> hint = banner_volatile) /\
       (Close b1 - Close b2 <= 2 # 10 -> hint = banner_stable)).
Proof.
  split.
  - intros H. unfold vix_banner.
    rewrite (vix_fallback _ (fetch_data_short d H)). reflexivity.
  - intros pre b2 b1 ->. unfold vix_banner.
    rewrite fetch_data_nonempty by (destruct pre; discriminate).
    rewrite vix_last_two. cbn [bind]. eexists. split; [reflexivity|].
    unfold vix_hint, Num.gtb. cbn [Num.ltb].
    destruct (Qltb (2 # 10) (Close b1 - Close b2)) eqn:E.
    + split; [reflexivity|]. apply Qltb_lt in E. intros H. lra.
    + split; [|reflexivity]. apply Qltb_ge in E. intros H. lra.
Qed.

Lemma vix_banner_spec_witness :
  vix_banner (downloaded (sample 1)) = Ok (Fin 20, banner_stable) /\
  exists hint,
    vix_banner (downloaded (sample 1 ++ [sample_bar 1; sample_bar 2]))
    = Ok (Fin (Close (sample_bar 2)), hint) /\
    hint = banner_volatile.
Proof.
  split.
  - apply (proj1 (vix_banner_spec (downloaded (sample 1)))).
    vm_compute. lia.
  - destruct (proj2 (vix_banner_spec
                       (downloaded (sample 1 ++ [sample_bar 1; sample_bar 2])))
                    (sample 1) (sample_bar 1) (sample_bar 2) eq_refl)
      as (hint & Hb & Hv & _).
    exists hint. split; [exact Hb|]. apply Hv. vm_compute. reflexivity.
Defined.

(** ** The summary cards *)

(** X7: whatever the download of a symbol did, provided the EMA
    lengths fit a table of 30 rows or more, its summary card is drawn
    and nothing is raised.  The "no data" line is written exactly
    when the download failed, was empty or had fewer than 30 rows;
    otherwise the error card carries exactly the two cross messages,
    the warning card exactly the near-resistance message and the
    success card exactly the monitoring message. *)
Theorem summary_card_kinds
    (d : Download) (sym : string) (v_chg : num) (ema_f ema_s : nat) :
  match d with
  | download_raised => True
  | downloaded data => (30 <= length data)%nat -> windows_fit ema_f ema_s data
  end ->
  exists entry,
    analyze_stock (fetch_data d) v_chg ema_f ema_s = Ok entry /\
    (match d with
     | download_raised => True
     | downloaded data => (length data < 30)%nat
     end <-> summary_card sym (snd entry) = st_write (no_data_text sym)) /\
    (forall info, snd entry = Some info ->
       (summary_card sym (snd entry) = st_error (card_text sym (msg info))
        <-> msg info = msg_golden \/ msg info = msg_death) /\
       (summary_card sym (snd entry) = st_warning (card_text sym (msg info))
        <-> msg info = msg_resistance) /\
       (summary_card sym (snd entry) = st_success (card_text sym (msg info))
        <-> msg info = msg_monitoring)).
Proof.
  intros _.
  assert (Hnone : forall P : Prop, P ->
            (P <-> summary_card sym (snd (@None AugFrame, @None Info))
                   = st_write (no_data_text sym)) /\
            (forall info, snd (@None AugFrame, @None Info) = Some info ->
               (summary_card sym (snd (@None AugFrame, @None Info))
                = st_error (card_text sym (msg info))
                <-> msg info = msg_golden \/ msg info = msg_death) /\
               (summary_card sym (snd (@None AugFrame, @None Info))
                = st_warning (card_text sym (msg info))
                <-> msg info = msg_resistance) /\
               (summary_card sym (snd (@None AugFrame, @None Info))
                = st_success (card_text sym (msg info))
                <-> msg info = msg_monitoring))).
  { intros P HP. split; [tauto|]. intros info H. discriminate H. }
  destruct d as [|data].
  - exists (None, None). split; [reflexivity|]. now apply Hnone.
  - destruct (Nat.lt_ge_cases (length data) 30) as [Hlt|Hge].
    + exists (None, None). split; [|now apply Hnone].
      destruct data; [reflexivity|].
      cbn [fetch_data empty]. now apply guard_rejects_short.
    + assert (Hne : data <> []) by (destruct data; cbn in Hge; [lia|discriminate]).
      rewrite (fetch_data_nonempty data Hne).
      eexists. split; [now apply analyze_stock_accepted|].
      cbn [snd summary_card snapshot level msg]. unfold alert.
      split.
      * split; [lia|].
        destruct (golden_cross _ _); [intros H; discriminate H|].
        destruct (death_cross _ _); [intros H; discriminate H|].
        destruct (near_resistance _ _); intros H; discriminate H.
      * intros info [= <-]. cbn [snapshot level msg]. unfold alert.
        destruct (golden_cross _ _); [|destruct (death_cross _ _);
          [|destruct (near_resistance _ _)]];
          cbn [fst snd String.eqb Ascii.eqb Bool.eqb];
          repeat split;
          try (intros H; discriminate H);
          try (intros [H | H]; discriminate H);
          try reflexivity;
          try (intros _; left; reflexivity);
          try (intros _; right; reflexivity).
Qed.

Lemma summary_card_kinds_witness :
  exists entry,
    analyze_stock (fetch_data (downloaded cross_sample)) (Fin 0) 9 21
    = Ok entry /\
    summary_card "AAPL" (snd entry) = st_error (card_text "AAPL" msg_golden).
Proof.
  destruct (summary_card_kinds (downloaded cross_sample) "AAPL" (Fin 0) 9 21)
    as (entry & Ha & _ & Hk).
  - intros _. vm_compute. lia.
  - exists entry. split; [exact Ha|].
    assert (Hi : exists info, snd entry = Some info /\ msg info = msg_golden).
    { rewrite fetch_data_nonempty in Ha by discriminate.
      rewrite analyze_stock_accepted in Ha by (vm_compute; lia).
      injection Ha as <-. eexists. split; [reflexivity|].
      vm_compute. reflexivity. }
    destruct Hi as (info & Hs & Hm).
    destruct (Hk info Hs) as (He & _).
    rewrite Hm in He. apply He. left. reflexivity.
Defined.

(** ** The detail section *)

Lemma iloc_map_nth {A B : Type} (f : A -> B) (rows : list A) (i : nat) (d : A) :
  (i < length rows)%nat -> iloc (map f rows) i = Ok (f (nth i rows d)).
Proof.
  intros Hi. unfold iloc.
  rewrite nth_error_map, (nth_error_nth' rows d Hi). reflexivity.
Qed.

Lemma candle_colors_range (plot : AugFrame) (range : list nat) :
  Forall (fun i => (i < length plot)%nat) range ->
  candle_colors plot range
  = Ok (map (fun i => candle_color (nth i plot (mkRow (mkBar 0 0 0 0 0 0)
                                                   NaN NaN NaN NaN)))
            range).
Proof.
  induction 1 as [|i range Hi _ IH]; [reflexivity|].
  cbn [candle_colors map].
  rewrite !(iloc_map_nth _ plot i (mkRow (mkBar 0 0 0 0 0 0) NaN NaN NaN NaN))
    by exact Hi.
  cbn [bind]. rewrite IH. reflexivity.
Qed.

Lemma candle_colors_all (plot : AugFrame) :
  candle_colors plot (seq 0 (length plot)) = Ok (map candle_color plot).
Proof.
  rewrite candle_colors_range.
  - rewrite <- (map_map (fun i => nth i plot _) candle_color).
    now rewrite map_nth_seq_id.
  - apply Forall_forall. intros i Hi. apply in_seq in Hi. lia.
Qed.

Lemma tail_length {A : Type} (n : nat) (rows : list A) :
  (n <= length rows)%nat -> length (tail n rows) = n.
Proof.
  intros H. unfold tail. rewrite length_skipn. lia.
Qed.

Lemma detail_panel_accepted (rows : AugFrame) (info : Info) :
  detail_panel (Some rows, Some info)
  = Ok (Some (mkPanel (tail 30 rows) (price info) (chg_pct info) (rsi info)
                      (res info) (sup info) (res info) (sup info)
                      (map candle_color (tail 30 rows)))).
Proof.
  unfold detail_panel. cbn [getitem bind].
  rewrite candle_colors_all. reflexivity.
Qed.

(** X8: the detail section is safe after [analyze_stock]: for every
    frame whose EMA lengths fit it when it has 30 rows or more,
    subscripting [info] under the test [df is not None] never raises,
    and a panel is drawn exactly when the frame has 30 rows or more. *)
Theorem detail_panel_after_analyze
    (df : option Frame) (v_chg : num) (ema_f ema_s : nat) :
  match df with
  | None => True
  | Some rows => (30 <= length rows)%nat -> windows_fit ema_f ema_s rows
  end ->
  exists entry panel,
    analyze_stock df v_chg ema_f ema_s = Ok entry /\
    detail_panel entry = Ok panel /\
    (panel = None <-> fst entry = None) /\
    (panel = None <->
     match df with
     | None => True
     | Some rows => (length rows < 30)%nat
     end).
Proof.
  intros _.
  destruct (analyze_stock_both_or_neither_aux df v_chg ema_f ema_s)
    as [[Hs ->] | (rows & aug & info & -> & Hlen & ->)].
  - exists (None, None), None. repeat split; auto.
  - eexists. eexists. split; [reflexivity|].
    split; [apply detail_panel_accepted|].
    cbn [fst]. split; split; intros H; try discriminate H; lia.
Qed.

Lemma detail_panel_after_analyze_witness :
  exists entry panel,
    analyze_stock (Some cross_sample) (Fin 0) 9 21 = Ok entry /\
    detail_panel entry = Ok panel /\
    panel <> None.
Proof.
  destruct (detail_panel_after_analyze (Some cross_sample) (Fin 0) 9 21)
    as (entry & panel & Ha & Hd & _ & Hn).
  - intros _. vm_compute. lia.
  - exists entry, panel. split; [exact Ha|]. split; [exact Hd|].
    intros E. apply Hn in E. vm_compute in E. lia.
Defined.

(** X9: the chart of an accepted series shows exactly 30 candles, the
    last 30 bars of the input in order, and one colour per candle: red
    when the bar closed below its open, green otherwise. *)
Theorem detail_panel_shows_last_30
    (df : Frame) (v_chg : num) (ema_f ema_s : nat) :
  (30 <= length df)%nat ->
  exists entry p,
    analyze_stock (Some df) v_chg ema_f ema_s = Ok entry /\
    detail_panel entry = Ok (Some p) /\
    map bar (df_plot p) = skipn (length df - 30) df /\
    length (df_plot p) = 30%nat /\
    length (v_colors p) = 30%nat /\
    forall i b, nth_error (skipn (length df - 30) df) i = Some b ->
      (Close b < Open b -> nth_error (v_colors p) i = Some "red"%string) /\
      (Open b <= Close b -> nth_error (v_colors p) i = Some "green"%string).
Proof.
  intros Hlen. eexists. eexists.
  split; [now apply analyze_stock_accepted|].
  split; [apply detail_panel_accepted|].
  cbn [df_plot v_colors].
  assert (Hbars : map bar (tail 30 (augment df ema_f ema_s))
                  = skipn (length df - 30) df).
  { unfold tail. rewrite <- (augment_bars df ema_f ema_s) at 3.
    rewrite <- skipn_map, <- (length_map bar), augment_bars. reflexivity. }
  assert (Hl : length (tail 30 (augment df ema_f ema_s)) = 30%nat).
  { apply tail_length.
    rewrite <- (length_map bar), augment_bars. exact Hlen. }
  split; [exact Hbars|]. split; [exact Hl|].
  split; [now rewrite length_map|].
  intros i b Hi. rewrite <- Hbars, nth_error_map in Hi.
  rewrite nth_error_map.
  destruct (nth_error (tail 30 (augment df ema_f ema_s)) i) as [r|];
    [|discriminate Hi].
  injection Hi as <-. cbn [option_map]. unfold candle_color. cbn [Num.ltb].
  destruct (Qltb (Close (bar r)) (Open (bar r))) eqn:E.
  - apply Qltb_lt in E. split; [reflexivity | intros H; lra].
  - apply Qltb_ge in E. split; [intros H; lra | reflexivity].
Qed.

Lemma detail_panel_shows_last_30_witness :
  exists entry p,
    analyze_stock (Some cross_sample) (Fin 0) 9 21 = Ok entry /\
    detail_panel entry = Ok (Some p) /\
    length (df_plot p) = 30%nat /\
    nth_error (v_colors p) 0 = Some "red"%string /\
    nth_error (v_colors p) 29 = Some "green"%string.
Proof.
  destruct (detail_panel_shows_last_30 cross_sample (Fin 0) 9 21)
    as (entry & p & Ha & Hd & _ & Hl & _ & Hc).
  { vm_compute. lia. }
  exists entry, p. split; [exact Ha|]. split; [exact Hd|].
  split; [exact Hl|]. split.
  - apply (Hc 0%nat (mkBar 0 131 132 129 130 1000)).
    + vm_compute. reflexivity.
    + vm_compute. reflexivity.
  - apply (Hc 29%nat (mkBar 29 102 400 101 400 5000)).
    + vm_compute. reflexivity.
    + vm_compute. intros H. discriminate H.
Defined.

Lemma pct_sign (c o : Q) : 0 < o -> ((c - o) / o * 100 < 0 <-> c < o).
Proof.
  intros Ho.
  assert (Hinv : 0 < / o) by now apply Qinv_lt_0_compat.
  unfold Qdiv. set (y := / o) in *.
  split; intros H.
  - destruct (Qlt_le_dec c o) as [Hlt|Hge]; [exact Hlt|].
    assert (0 <= (c - o) * y) by (apply Qmult_le_0_compat; lra). lra.
  - assert (0 < (o - c) * y) by (apply Qmult_lt_0_compat; lra).
    assert (E : (c - o) * y == - ((o - c) * y)) by ring. lra.
Qed.

(** X10: for an accepted series whose latest bar has a positive open,
    the percent change shown beside the chart is a finite number, and
    it is negative exactly when the latest volume bar is red. *)
Theorem delta_sign_matches_last_candle
    (df : Frame) (v_chg : num) (ema_f ema_s : nat) :
  (30 <= length df)%nat ->
  0 < Open (nth (length df - 1) df (mkBar 0 0 0 0 0 0)) ->
  exists entry p delta,
    analyze_stock (Some df) v_chg ema_f ema_s = Ok entry /\
    detail_panel entry = Ok (Some p) /\
    metric_delta p = Fin delta /\
    (delta < 0 <-> nth_error (v_colors p) 29 = Some "red"%string).
Proof.
  intros Hlen Hopen. eexists. eexists. eexists.
  split; [now apply analyze_stock_accepted|].
  split; [apply detail_panel_accepted|].
  cbn [metric_delta v_colors snapshot chg_pct].
  rewrite !row_at_bar.
  set (b := nth (length df - 1) df (mkBar 0 0 0 0 0 0)) in *.
  assert (Hz : Qeq_bool (Open b) 0 = false).
  { apply not_true_iff_false. rewrite Qeq_bool_iff. lra. }
  cbn [Num.sub Num.neg Num.add Num.div Num.mul]. rewrite Hz.
  cbn [Num.mul]. split; [reflexivity|].
  etransitivity; [exact (pct_sign (Close b) (Open b) Hopen)|].
  assert (Hrow : nth_error (tail 30 (augment df ema_f ema_s)) 29
                 = Some (row_at df ema_f ema_s (length df - 1))).
  { unfold tail. rewrite nth_error_skipn, augment_rows.
    rewrite length_map, length_seq.
    replace (length df - 30 + 29)%nat with (length df - 1)%nat by lia.
    rewrite nth_error_map, (nth_error_nth' _ 0%nat)
      by (rewrite length_seq; lia).
    rewrite seq_nth by lia. reflexivity. }
  rewrite nth_error_map, Hrow. cbn [option_map].
  unfold candle_color. rewrite row_at_bar. fold b. cbn [Num.ltb].
  destruct (Qltb (Close b) (Open b)) eqn:E.
  - apply Qltb_lt in E. split; [reflexivity | intros _; exact E].
  - apply Qltb_ge in E. split; [intros H; lra | intros H; discriminate H].
Qed.

Lemma delta_sign_matches_last_candle_witness :
  exists entry p delta,
    analyze_stock (Some cross_sample) (Fin 0) 9 21 = Ok entry /\
    detail_panel entry = Ok (Some p) /\
    metric_delta p = Fin delta /\
    (delta < 0 <-> nth_error (v_colors p) 29 = Some "red"%string).
Proof.
  apply (delta_sign_matches_last_candle cross_sample (Fin 0) 9 21).
  - vm_compute. lia.
  - vm_compute. reflexivity.
Defined.

(** ** The cache of a cycle *)

Lemma dict_get_set_eq (k : string) v (c : Cache) :
  dict_get k (dict_set k v c) = Some v.
Proof.
  induction c as [|[k' v'] c IH]; cbn [dict_set dict_get].
  - now rewrite String.eqb_refl.
  - destruct (String.eqb k k') eqn:E; cbn [dict_get].
    + now rewrite String.eqb_refl.
    + now rewrite E.
Qed.

Lemma dict_get_set_ne (k k' : string) v (c : Cache) :
  k <> k' -> dict_get k' (dict_set k v c) = dict_get k' c.
Proof.
  intros Hne. induction c as [|[k0 v0] c IH]; cbn [dict_set dict_get].
  - replace (String.eqb k' k) with false
      by (symmetry; apply String.eqb_neq; congruence).
    reflexivity.
  - destruct (String.eqb k k0) eqn:E; cbn [dict_get].
    + apply String.eqb_eq in E. subst k0.
      replace (String.eqb k' k) with false
        by (symmetry; apply String.eqb_neq; congruence).
      reflexivity.
    + now rewrite IH.
Qed.

Lemma last_occurrence (sym : string) (symbols : list string) :
  In sym symbols ->
  exists j, nth_error symbols j = Some sym /\
            forall j', (j < j')%nat -> nth_error symbols j' <> Some sym.
Proof.
  induction symbols as [|a rest IH]; [intros []|].
  intros Hin. destruct (in_dec string_dec sym rest) as [Hr|Hr].
  - destruct (IH Hr) as (j & Hj & Hlast). exists (S j).
    split; [exact Hj|]. intros [|j'] Hlt; [lia|].
    apply Hlast. lia.
  - destruct Hin as [->|Hin]; [|contradiction].
    exists 0%nat. split; [reflexivity|].
    intros [|j'] Hlt; [lia|]. cbn [nth_error]. intros H.
    apply Hr. eapply nth_error_In. exact H.
Qed.

Lemma summary_loop_spec (provider : nat -> string -> Download)
    (v_chg : num) (ema_f ema_s : nat) (symbols : list string) :
  forall (idx : nat) (c0 : Cache),
  exists cache cards,
    summary_loop provider v_chg ema_f ema_s idx symbols c0
    = Ok (cache, cards) /\
    length cards = length symbols /\
    (forall sym, ~ In sym symbols -> dict_get sym cache = dict_get sym c0) /\
    (forall j sym, nth_error symbols j = Some sym ->
       exists entry,
         analyze_stock (fetch_data (provider (idx + j)%nat sym))
                       v_chg ema_f ema_s = Ok entry /\
         nth_error cards j = Some (summary_card sym (snd entry)) /\
         ((forall j', (j < j')%nat -> nth_error symbols j' <> Some sym) ->
          dict_get sym cache = Some entry)).
Proof.
  induction symbols as [|sym0 rest IH]; intros idx c0.
  - exists c0, []. split; [reflexivity|]. split; [reflexivity|].
    split; [reflexivity|]. intros [|j] sym H; discriminate H.
  - destruct (analyze_stock_returns (fetch_data (provider idx sym0))
                v_chg ema_f ema_s) as (entry0 & He0).
    destruct (IH (S idx) (dict_set sym0 entry0 c0))
      as (cache & cards & Hrun & Hlen & Hout & Hin).
    exists cache, (summary_card sym0 (snd entry0) :: cards).
    split; [cbn [summary_loop]; rewrite He0; cbn [bind];
            rewrite Hrun; reflexivity|].
    split; [cbn [length]; now rewrite Hlen|].
    split.
    + intros sym Hn. rewrite Hout by (intros H; apply Hn; now right).
      apply dict_get_set_ne. intros ->. apply Hn. now left.
    + intros [|j] sym Hj.
      * injection Hj as <-. exists entry0.
        rewrite Nat.add_0_r. split; [exact He0|]. split; [reflexivity|].
        intros Hlast. rewrite Hout.
        -- apply dict_get_set_eq.
        -- intros H. apply In_nth_error in H as [j' Hj'].
           apply (Hlast (S j')); [lia | exact Hj'].
      * destruct (Hin j sym Hj) as (entry & He & Hc & Hd).
        exists entry. rewrite Nat.add_succ_r. split; [exact He|].
        split; [exact Hc|]. intros Hlast. apply Hd.
        intros j' Hlt. apply (Hlast (S j')). lia.
Qed.

(** X11: the first loop of a cycle never raises, whatever the downloads
    do, provided the EMA lengths fit every table of 30 rows or more.
    It draws one card per configured symbol, the card at position
    [j] being the one of the download made at position [j] alone, and
    the cache then holds, for each symbol, the result of its last
    occurrence in the list. *)
Theorem summary_loop_cards_and_cache
    (provider : nat -> string -> Download)
    (v_chg : num) (ema_f ema_s : nat) (symbols : list string) :
  (forall j sym data, provider j sym = downloaded data ->
     (30 <= length data)%nat -> windows_fit ema_f ema_s data) ->
  exists cache cards,
    summary_loop provider v_chg ema_f ema_s 0 symbols [] = Ok (cache, cards) /\
    length cards = length symbols /\
    (forall j sym, nth_error symbols j = Some sym ->
       exists entry,
         analyze_stock (fetch_data (provider j sym)) v_chg ema_f ema_s
         = Ok entry /\
         nth_error cards j = Some (summary_card sym (snd entry)) /\
         ((forall j', (j < j')%nat -> nth_error symbols j' <> Some sym) ->
          dict_get sym cache = Some entry)).
Proof.
  intros _.
  destruct (summary_loop_spec provider v_chg ema_f ema_s symbols 0 [])
    as (cache & cards & Hrun & Hlen & _ & Hin).
  exists cache, cards. split; [exact Hrun|]. split; [exact Hlen|].
  exact Hin.
Qed.

Lemma summary_loop_cards_and_cache_witness :
  exists cache cards,
    summary_loop sample_provider (Fin 0) 9 21 0 sample_symbols []
    = Ok (cache, cards) /\
    length cards = length sample_symbols /\
    (forall j sym, nth_error sample_symbols j = Some sym ->
       exists entry,
         analyze_stock (fetch_data (sample_provider j sym)) (Fin 0) 9 21
         = Ok entry /\
         nth_error cards j = Some (summary_card sym (snd entry)) /\
         ((forall j', (j < j')%nat -> nth_error sample_symbols j' <> Some sym) ->
          dict_get sym cache = Some entry)).
Proof.
  apply (summary_loop_cards_and_cache sample_provider (Fin 0) 9 21
           sample_symbols).
  intros j sym data H _. unfold sample_provider in H.
  destruct (j =? 1)%nat; [discriminate H|].
  injection H as <-. vm_compute. lia.
Defined.

(** X12: the second loop of a cycle is safe, provided the EMA lengths
    fit every table of 30 rows or more: every configured symbol is
    found in the cache that the first loop filled, and the detail panel
    of what is found is drawn without raising. *)
Theorem detail_loop_finds_every_symbol
    (provider : nat -> string -> Download)
    (v_chg : num) (ema_f ema_s : nat) (symbols : list string) :
  (forall j sym data, provider j sym = downloaded data ->
     (30 <= length data)%nat -> windows_fit ema_f ema_s data) ->
  exists cache cards,
    summary_loop provider v_chg ema_f ema_s 0 symbols [] = Ok (cache, cards) /\
    forall sym, In sym symbols ->
      exists entry panel,
        dict_get sym cache = Some entry /\ detail_panel entry = Ok panel.
Proof.
  intros _.
  destruct (summary_loop_spec provider v_chg ema_f ema_s symbols 0 [])
    as (cache & cards & Hrun & _ & _ & Hin).
  exists cache, cards. split; [exact Hrun|].
  intros sym Hsym.
  destruct (last_occurrence sym symbols Hsym) as (j & Hj & Hlast).
  destruct (Hin j sym Hj) as (entry & He & _ & Hd).
  exists entry.
  destruct (analyze_stock_both_or_neither_aux
              (fetch_data (provider (0 + j)%nat sym)) v_chg ema_f ema_s)
    as [[_ Hr] | (rows & aug & info & _ & _ & Hr)];
    rewrite Hr in He; injection He as <-.
  - exists None. split; [now apply Hd | reflexivity].
  - eexists. split; [now apply Hd | apply detail_panel_accepted].
Qed.

Lemma detail_loop_finds_every_symbol_witness :
  exists cache cards,
    summary_loop sample_provider (Fin 0) 9 21 0 sample_symbols []
    = Ok (cache, cards) /\
    forall sym, In sym sample_symbols ->
      exists entry panel,
        dict_get sym cache = Some entry /\ detail_panel entry = Ok panel.
Proof.
  apply (detail_loop_finds_every_symbol sample_provider (Fin 0) 9 21
           sample_symbols).
  intros j sym data H _. unfold sample_provider in H.
  destruct (j =? 1)%nat; [discriminate H|].
  injection H as <-. vm_compute. lia.
Defined.

(** ** The symbol list *)

Lemma split_comma_nonempty (s : string) : split_comma s <> [].
Proof.
  destruct s as [|c s]; cbn [split_comma]; [discriminate|].
  destruct (Ascii.eqb c ","); [discriminate|].
  destruct (split_comma s); discriminate.
Qed.

Lemma split_comma_length (s : string) :
  length (split_comma s) = S (count_commas s).
Proof.
  induction s as [|c s IH]; cbn [split_comma count_commas]; [reflexivity|].
  destruct (Ascii.eqb c ","); cbn [length]; [now rewrite IH|].
  destruct (split_comma s) as [|p ps] eqn:E; [|exact IH].
  now apply split_comma_nonempty in E.
Qed.

Lemma concat_cons2 (sep a b : string) (rest : list string) :
  String.concat sep (a :: b :: rest)
  = (a ++ sep ++ String.concat sep (b :: rest))%string.
Proof. reflexivity. Qed.

(** X13: the text of the sidebar always yields at least one symbol:
    one more than the number of commas in it, whatever [strip] and
    [upper] do to the pieces; joining the pieces of the split with
    commas gives the text back. *)
Theorem parse_symbols_count (strip upper : string -> string)
    (input_symbols : string) :
  length (parse_symbols strip upper input_symbols)
  = S (count_commas input_symbols) /\
  String.concat "," (split_comma input_symbols) = input_symbols.
Proof.
  split.
  - unfold parse_symbols. rewrite length_map. apply split_comma_length.
  - induction input_symbols as [|c s IH]; [reflexivity|].
    cbn [split_comma].
    pose proof (split_comma_nonempty s) as Hne.
    destruct (Ascii.eqb c ",") eqn:E.
    + apply Ascii.eqb_eq in E. subst c.
      destruct (split_comma s) as [|p ps]; [congruence|].
      rewrite concat_cons2. cbn [String.append]. now rewrite IH.
    + destruct (split_comma s) as [|p ps]; [congruence|].
      destruct ps as [|q qs].
      * cbn [String.concat] in *. now rewrite IH.
      * rewrite concat_cons2 in *. cbn [String.append] in *. now rewrite IH.
Qed.
